(** * QueryTube: the embedding job and the vector-store loader

    A shallow embedding of [src/embed.py] and [src/vector_db.py].

    Conventions.
    - A Python [str] is a [string]; a character is a code point below 256
      (Latin-1), which fixes what [strip], [lower] and [isdigit] do.
    - A data-frame cell, as [pandas.read_csv] produces it, is a scalar: the
      missing marker NaN, a float, an integer, a boolean or text.  Floats
      other than NaN are kept abstract (type [F]); the Python built-ins that
      look inside one ([str], truth value, [int]) are fields of [PyOps].
    - [ast.literal_eval] and [json.loads] belong to the Python library, the
      sentence encoder and the chromadb client to third parties: they are
      fields of [PyOps] and of the environment record [Env].
    - Effects (file system, store, console) are threaded through a state
      and exception monad [M]; every [print] appends one [Msg].  An
      exception is an instance of [Exception]: every [except Exception]
      clause catches it.
    - The frame read from CSV has the default index, so the label [idx]
      that [iterrows] gives a row is its position. *)

From stdpp Require Import gmap strings list pretty.


From Stdlib Require Import ZArith Ascii.

Set Warnings "-register-all".
Open Scope string_scope.
Open Scope list_scope.

(** ** Python string operations *)

Module PyStr.

Definition code (c : ascii) : N := N_of_ascii c.

Definition between (lo hi : N) (c : ascii) : bool :=
  ((lo <=? code c) && (code c <=? hi))%N.

(** [c.isspace()]: TAB..CR, FS..US and space, NEL, NBSP. *)
Definition isspace (c : ascii) : bool :=
  between 9 13 c || between 28 32 c || (code c =? 133)%N || (code c =? 160)%N.

(** [c.isdigit()]: the decimal digits and the superscripts 1, 2, 3. *)
Definition isdecimal_char (c : ascii) : bool := between 48 57 c.

Definition isdigit_char (c : ascii) : bool :=
  isdecimal_char c || (code c =? 178)%N || (code c =? 179)%N || (code c =? 185)%N.

Definition lower_char (c : ascii) : ascii :=
  if between 65 90 c || (between 192 222 c && negb (code c =? 215)%N)
  then ascii_of_N (code c + 32) else c.

Fixpoint lower (s : string) : string :=
  match s with
  | EmptyString => EmptyString
  | String c s' => String (lower_char c) (lower s')
  end.

Fixpoint lstrip (s : string) : string :=
  match s with
  | EmptyString => EmptyString
  | String c s' => if isspace c then lstrip s' else s
  end.

Definition rstrip (s : string) : string := String.rev (lstrip (String.rev s)).

Definition strip (s : string) : string := rstrip (lstrip s).

(** Truth value of a [str]. *)
Definition nonempty (s : string) : bool :=
  match s with EmptyString => false | String _ _ => true end.

Fixpoint forall_chars (p : ascii -> bool) (s : string) : bool :=
  match s with
  | EmptyString => true
  | String c s' => p c && forall_chars p s'
  end.

(** [s.isdigit()] *)
Definition isdigit (s : string) : bool := nonempty s && forall_chars isdigit_char s.

(** [sub in s] *)
Fixpoint contains (sub s : string) : bool :=
  String.prefix sub s ||
  match s with
  | EmptyString => false
  | String _ s' => contains sub s'
  end.

(** [s.split(sep)] for a non-empty [sep]: scan from the left, cut at each
    occurrence, resume after it.  [skip] counts the characters of a
    matched separator still to be dropped, [cur] is the piece being read. *)
Fixpoint split_go (sep : string) (skip : nat) (cur : string) (s : string) : list string :=
  match s with
  | EmptyString => [String.rev cur]
  | String c s' =>
      match skip with
      | S k => split_go sep k cur s'
      | O =>
          if String.prefix sep s
          then String.rev cur :: split_go sep (String.length sep - 1) EmptyString s'
          else split_go sep 0 (String c cur) s'
      end
  end.

Definition split (sep s : string) : list string := split_go sep 0 EmptyString s.

(** No occurrence of [sep] starts inside [pre] when [pre] is followed by [t]. *)
Fixpoint no_match (sep pre t : string) : bool :=
  match pre with
  | EmptyString => true
  | String c p => negb (String.prefix sep (pre +:+ t)) && no_match sep p t
  end.

(** [int(s)] in base ten: surrounding white space, an optional sign,
    decimal digits with single underscores between them. *)
Definition digit_val (c : ascii) : Z := Z.of_N (code c) - 48.

Fixpoint digits_go (acc : Z) (after_digit : bool) (s : string) : option Z :=
  match s with
  | EmptyString => if after_digit then Some acc else None
  | String c s' =>
      if isdecimal_char c then digits_go (10 * acc + digit_val c) true s'
      else if (code c =? 95)%N && after_digit then
        match s' with
        | String d _ => if isdecimal_char d then digits_go acc false s' else None
        | EmptyString => None
        end
      else None
  end.

(** White space as [int] reads it: TAB..CR, space, NEL and NBSP.  FS..US
    are white space for [str.strip] but not here. *)
Definition int_space (c : ascii) : bool :=
  between 9 13 c || (code c =? 32)%N || (code c =? 133)%N || (code c =? 160)%N.

Fixpoint int_lstrip (s : string) : string :=
  match s with
  | EmptyString => EmptyString
  | String c s' => if int_space c then int_lstrip s' else s
  end.

Definition int_strip (s : string) : string :=
  String.rev (int_lstrip (String.rev (int_lstrip s))).

Fixpoint digit_count (s : string) : N :=
  match s with
  | EmptyString => 0
  | String c s' => ((if isdecimal_char c then 1 else 0) + digit_count s')%N
  end.

(** [sys.int_max_str_digits]: a longer numeral raises ValueError. *)
Definition MAX_STR_DIGITS : N := 4300.

Definition to_int (s : string) : option Z :=
  let t := int_strip s in
  if (MAX_STR_DIGITS <? digit_count t)%N then None
  else match t with
       | String "-" u => Z.opp <$> digits_go 0 false u
       | String "+" u => digits_go 0 false u
       | u => digits_go 0 false u
       end.

End PyStr.


(** ** Exceptions and console output *)

Inductive ExnClass :=
| TypeError
| AttributeError
| ValueError
| FileNotFoundError
| RuntimeError
| AssertionError
| OtherException.

(** An exception object: its class (for [except] clauses) and its text. *)
Record Exn := { exn_class : ExnClass; exn_text : string }.

#[global] Instance ExnClass_eq_dec : EqDecision ExnClass.
Proof. solve_decision. Defined.

(** [except c:] catches [e]. *)
Definition is_class (c : ExnClass) (e : Exn) : bool := bool_decide (exn_class e = c).

(** One constructor for each [print] of the two programs. *)
Inductive Msg :=
| MsgPersistentClientCreated (path : string)
| MsgPersistentClientUnavailable
| MsgPersistentClientFailed (ex : Exn)
| MsgHttpClientCreated
| MsgSettingsClientCreated (path : string)
| MsgSettingsFailed (ex : Exn)
| MsgPathClientCreated (path : string)
| MsgPathClientFailed (ex : Exn)
| MsgUsingGetOrCreate (name : string)
| MsgUsingCreate (name : string)
| MsgUsingGetExisting (name : string)
| MsgUsingGet (name : string)
| MsgCollectionError (e : Exn)
| MsgLoading (file : string)
| MsgLoaded (n : nat)
| MsgSkipping (idx : nat) (vid : string)
| MsgNoValidRows
| MsgPreparing (n : nat) (name : string)
| MsgInserted (batch_no first last : nat)
| MsgAddTypeError (te : Exn)
| MsgInsertedPositional (batch_no first last : nat)
| MsgPositionalFailed (e2 : Exn)
| MsgUpserted (batch_no first last : nat)
| MsgPersistCalled
| MsgPersistError (e : Exn)
| MsgRule
| MsgSuccess (n : nat)
| MsgCollection (name : string)
| MsgPersistDir (dir : string)
| MsgDirExists (dir : string)
| MsgContains (n : nat)
| MsgFileName (name : string)
| MsgMore (n : nat)
| MsgDirNotCreated (dir : string)
| MsgMaybeInMemory
| MsgEmbedding (n : nat) (model : string)
| MsgSaved (file : string).

(** A data frame over cells of type [C]: its column labels and its rows. *)
Record DataFrame (C : Type) := {
  columns : list string;
  rows : list (gmap string C)
}.
Arguments columns {C} d.
Arguments rows {C} d.

Record Metadata := {
  title : string;
  channel_title : string;
  view_count : option Z;
  duration_seconds : option Z
}.

(** ** Values *)

Section Values.

Context {F : Type}.

(** A cell of a data frame read from CSV.  [row.get(k)] is an
    [option Cell]: [None] is Python's [None] (no such column). *)
Inductive Cell :=
| CNaN
| CFloat (f : F)
| CInt (z : Z)
| CBool (b : bool)
| CStr (s : string).

(** A value a literal parser can return. *)
Inductive PyVal :=
| PNone
| PNaN
| PFloat (f : F)
| PInt (z : Z)
| PBool (b : bool)
| PStr (s : string)
| PBytes (s : string)
| PList (l : list PyVal)
| PTuple (l : list PyVal)
| PSet (l : list PyVal)
| PDict (kv : list (PyVal * PyVal)).

(** The Python built-ins and library parsers the program calls. *)
Record PyOps := {
  float_str : F -> string;                  (* str(f) *)
  float_truthy : F -> bool;                 (* bool(f) *)
  float_int : F -> option Z;                (* int(f); None: it raises *)
  literal_eval : string -> option PyVal;    (* None: it raises *)
  json_loads : string -> option PyVal       (* None: it raises *)
}.

Variable py : PyOps.

Definition Row := gmap string Cell.

Definition get (row : Row) (k : string) : option Cell := row !! k.

(** [k in row] *)
Definition has_key (k : string) (row : Row) : bool := bool_decide (is_Some (row !! k)).

Definition pd_isna (x : option Cell) : bool :=
  match x with
  | None | Some CNaN => true
  | Some _ => false
  end.

Definition pd_notna (x : option Cell) : bool := negb (pd_isna x).

Definition is_None (x : option Cell) : bool :=
  match x with None => true | Some _ => false end.

Definition py_str (x : option Cell) : string :=
  match x with
  | None => "None"
  | Some CNaN => "nan"
  | Some (CFloat f) => float_str py f
  | Some (CInt z) => pretty z
  | Some (CBool true) => "True"
  | Some (CBool false) => "False"
  | Some (CStr s) => s
  end.

Definition truthy (x : option Cell) : bool :=
  match x with
  | None => false
  | Some CNaN => true
  | Some (CFloat f) => float_truthy py f
  | Some (CInt z) => negb (z =? 0)%Z
  | Some (CBool b) => b
  | Some (CStr s) => PyStr.nonempty s
  end.

(** [x == ""] *)
Definition eq_empty_str (x : option Cell) : bool :=
  match x with
  | Some (CStr EmptyString) => true
  | _ => false
  end.

(** [int(x)]; [None]: it raises. *)
Definition py_int (x : option Cell) : option Z :=
  match x with
  | None | Some CNaN => None
  | Some (CFloat f) => float_int py f
  | Some (CInt z) => Some z
  | Some (CBool b) => Some (if b then 1 else 0)%Z
  | Some (CStr s) => PyStr.to_int s
  end.

(** [list(val)]; [None]: TypeError, the value is not iterable. *)
Definition py_list (v : PyVal) : option (list PyVal) :=
  match v with
  | PList l | PTuple l | PSet l => Some l
  | PDict kv => Some (fst <$> kv)
  | PStr s => Some ((fun c => PStr (String c EmptyString)) <$> String.list_ascii_of_string s)
  | PBytes s => Some ((fun c => PInt (Z.of_N (PyStr.code c))) <$> String.list_ascii_of_string s)
  | PNone | PNaN | PFloat _ | PInt _ | PBool _ => None
  end.

(** The four parallel lists handed to the store in one call. *)
Record Batch := {
  batch_ids : list string;
  batch_docs : list string;
  batch_meta : list Metadata;
  batch_emb : list (list PyVal)
}.

End Values.

Arguments Cell : clear implicits.
Arguments PyVal : clear implicits.
Arguments PyOps : clear implicits.
Arguments Row : clear implicits.
Arguments Batch : clear implicits.

(** ** Effects *)

Section Effects.

(** [X] is the state of everything outside the program: the file system
    and the vector store. *)
Context {X : Type}.

Record World := { ext : X; console : list Msg }.

Inductive Res (A : Type) :=
| Ok (a : A)
| Raise (e : Exn).
Arguments Ok {A} a.
Arguments Raise {A} e.

(** An operation of a library or of the system. *)
Definition Op (A : Type) : Type := X -> Res A * X.

Definition M (A : Type) : Type := World -> Res A * World.

#[global] Instance M_ret : MRet M := fun A a w => (Ok a, w).

#[global] Instance M_bind : MBind M := fun A B k m w =>
  match m w with
  | (Ok a, w') => k a w'
  | (Raise e, w') => (Raise e, w')
  end.

Definition raise {A} (e : Exn) : M A := fun w => (Raise e, w).

(** [try: body except Exception as e: handler(e)] *)
Definition try_except {A} (body : M A) (handler : Exn -> M A) : M A := fun w =>
  match body w with
  | (Ok a, w') => (Ok a, w')
  | (Raise e, w') => handler e w'
  end.

Definition call {A} (op : Op A) : M A := fun w =>
  let '(r, x) := op (ext w) in (r, {| ext := x; console := console w |}).

Definition reads {A} (f : X -> A) : M A := fun w => (Ok (f (ext w)), w).

Definition print (m : Msg) : M unit := fun w =>
  (Ok tt, {| ext := ext w; console := console w ++ [m] |}).

Definition print_all (ms : list Msg) : M unit := fun w =>
  (Ok tt, {| ext := ext w; console := console w ++ ms |}).

Fixpoint for_each {A} (l : list A) (body : A -> M unit) : M unit :=
  match l with
  | [] => mret tt
  | a :: l' => body a;; for_each l' body
  end.

End Effects.

Arguments World : clear implicits.
Arguments Op : clear implicits.
Arguments M : clear implicits.
Arguments Ok {A} a.
Arguments Raise {A} e.

(** ** The libraries, as the two programs see them *)

Section Interfaces.

Context {F X : Type}.

(** A collection object: [add] called with keywords, [add] called
    positionally, and [upsert] when the object has that attribute. *)
Record Collection := {
  add_kw : Batch F -> Op X unit;
  add_positional : Batch F -> Op X unit;
  upsert : option (Batch F -> Op X unit)
}.

(** A client object; [None]: [hasattr] is false. *)
Record Client := {
  client_get_or_create_collection : option (string -> Op X Collection);
  client_create_collection : option (string -> Op X Collection);
  client_get_collection : option (string -> Op X Collection);
  client_persist : option (Op X unit)
}.

(** The sentence encoder: [encode(texts, batch_size=...)] gives one
    vector for each text; a vector is the list [tolist()] makes of it. *)
Record Encoder := {
  encode : list (Cell F) -> nat -> Op X (list (list (PyVal F)))
}.

Record Env := {
  (* Path(p).exists() *)
  path_exists : string -> X -> bool;
  (* pd.read_csv(p) *)
  read_csv : string -> Op X (DataFrame (Cell F));
  (* df.to_csv(p, index=False), the frame holding a list in each
     embedding cell *)
  to_csv : DataFrame (Cell F + list (PyVal F)) -> string -> Op X unit;
  (* [f.name for f in Path(p).glob("*")] *)
  glob_names : string -> Op X (list string);
  (* import chromadb *)
  import_chromadb : Op X unit;
  (* Path(p).mkdir(exist_ok=True) *)
  mkdir_exist_ok : string -> Op X unit;
  (* chromadb.PersistentClient(path=p) *)
  PersistentClient : string -> Op X Client;
  (* chromadb.HttpClient() *)
  HttpClient : Op X Client;
  (* from chromadb.config import Settings;
     chromadb.Client(Settings(chroma_db_impl=impl, persist_directory=p)) *)
  Client_of_settings : string -> string -> Op X Client;
  (* chromadb.Client(path=p) *)
  Client_of_path : string -> Op X Client;
  (* from sentence_transformers import SentenceTransformer;
     SentenceTransformer(name) *)
  SentenceTransformer : string -> Op X Encoder
}.

End Interfaces.

Arguments Collection : clear implicits.
Arguments Client : clear implicits.
Arguments Encoder : clear implicits.
Arguments Env : clear implicits.

(** ** vector_db.py *)

Module VectorDb.
Section Loader.

Context {F X : Type}.
Variable py : PyOps F.
Variable env : Env F X.

Definition CSV_WITH_EMB := "master_data_with_embeddings.csv".
Definition PERSIST_DIR := "chroma_db".
Definition COLLECTION_NAME := "youtube_videos".

(** [val = parse(x); return list(val)], [None] when either step raises. *)
Definition parse_list (parse : string -> option (PyVal F)) (x : string) : option (list (PyVal F)) :=
  val ← parse x; py_list val.

(** A cell is a scalar, so the [isinstance(x, (list, tuple))] test of the
    source is false on every value [row.get] can give. *)
Definition ensure_embedding_list (x : option (Cell F)) : option (list (PyVal F)) :=
  if pd_isna x || is_None x || eq_empty_str x then None
  else match x with
       | Some (CStr s) =>
           match parse_list (literal_eval py) s with
           | Some l => Some l
           | None =>
               match parse_list (json_loads py) s with
               | Some l => Some l
               | None => None
               end
           end
       | _ => None
       end.

(** The test guarding each of the two identifier fields. *)
Definition usable_id (vid : option (Cell F)) : bool :=
  pd_notna vid && negb (is_None vid)
  && PyStr.nonempty (PyStr.strip (py_str py vid))
  && negb (String.eqb (PyStr.lower (py_str py vid)) "nan").

(** [str(url).split("v=")[1].split("&")[0]]; [None]: IndexError. *)
Definition vid_from_url (url : string) : option string :=
  p ← PyStr.split "v=" url !! 1%nat; PyStr.split "&" p !! 0%nat.

Definition fallback_id (idx : nat) : string := "vid_" +:+ pretty idx.

Definition get_valid_video_id (row : Row F) (idx : nat) : string :=
  let vid := get row "video_id" in
  if usable_id vid then PyStr.strip (py_str py vid)
  else
    let vid := get row "id" in
    if usable_id vid then PyStr.strip (py_str py vid)
    else
      let url := get row "url" in
      if pd_notna url && negb (is_None url) && PyStr.contains "v=" (py_str py url)
      then match vid_from_url (py_str py url) with
           | Some v => if PyStr.nonempty v then v else fallback_id idx
           | None => fallback_id idx
           end
      else fallback_id idx.

(** [f"{original_vid}_{counter}"] *)
Definition suffixed (original_vid : string) (counter : nat) : string :=
  original_vid +:+ "_" +:+ pretty counter.

(** The [while vid in used_ids] loop; [fuel] bounds the membership tests
    still allowed after the current one. *)
Fixpoint next_free (fuel : nat) (used_ids : gset string)
    (original_vid vid : string) (counter : nat) : option string :=
  if decide (vid ∈ used_ids) then
    match fuel with
    | O => None
    | S fuel' =>
        next_free fuel' used_ids original_vid (suffixed original_vid counter) (S counter)
    end
  else Some vid.

(** The loop started as the source starts it.  A set of [n] identifiers
    cannot hold all of [original_vid], [original_vid_1], ...,
    [original_vid_n], so [size used_ids] further tests are enough
    ([next_free_enough_fuel]) and the default below is never taken. *)
Definition unique_vid (used_ids : gset string) (original_vid : string) : string :=
  default original_vid (next_free (size used_ids) used_ids original_vid original_vid 1).

(** Lines 176-180: the candidate text fields, in order. *)
Definition pick_field (k : string) (row : Row F) : option (Cell F) :=
  if has_key k row then get row k else None.

(** The test [not raw_doc or pd.isna(raw_doc)]: the candidate is passed
    over when it is missing or falsy. *)
Definition passed_over (raw_doc : option (Cell F)) : bool :=
  negb (truthy py raw_doc) || pd_isna raw_doc.

Definition select_raw_doc (row : Row F) : option (Cell F) :=
  let raw_doc := pick_field "transcript_clean" row in
  let raw_doc :=
    if passed_over raw_doc then pick_field "combined_text" row else raw_doc in
  let raw_doc :=
    if passed_over raw_doc then pick_field "transcript" row else raw_doc in
  raw_doc.

Definition safe_doc (row : Row F) : string :=
  let raw_doc := select_raw_doc row in
  if pd_isna raw_doc || is_None raw_doc then "" else py_str py raw_doc.

(** [a or b] on cells. *)
Definition py_or (a b : option (Cell F)) : option (Cell F) := if truthy py a then a else b.

Definition view_count_of (row : Row F) : option Z :=
  let viewc := get row "view_count" in
  if negb (is_None viewc) && PyStr.isdigit (PyStr.strip (py_str py viewc))
  then py_int py viewc      (* a raise is caught and gives None *)
  else None.

Definition duration_of (row : Row F) : option Z :=
  if has_key "duration_seconds" row && negb (pd_isna (get row "duration_seconds"))
  then py_int py (get row "duration_seconds")
  else None.

Definition metadata_of (row : Row F) : Metadata :=
  {| title := py_str py (py_or (py_or (get row "title") (get row "title_clean"))
                            (Some (CStr "")));
     channel_title :=
       if has_key "channel_title" row
       then py_str py (py_or (get row "channel_title") (Some (CStr "")))
       else "";
     view_count := view_count_of row;
     duration_seconds := duration_of row |}.


Record LoadState := {
  ids : list string;
  documents : list string;
  metadatas : list Metadata;
  embeddings : list (list (PyVal F));
  used_ids : gset string;
  printed : list Msg
}.

Definition initial_state : LoadState :=
  {| ids := []; documents := []; metadatas := []; embeddings := [];
     used_ids := ∅; printed := [] |}.

(** The body of [for idx, row in df.iterrows()]. *)
Definition process_row (st : LoadState) (idx : nat) (row : Row F) : LoadState :=
  let vid := get_valid_video_id row idx in
  let original_vid := vid in
  let vid := unique_vid (used_ids st) original_vid in
  let used := {[vid]} ∪ used_ids st in
  match ensure_embedding_list (get row "embedding") with
  | None =>
      {| ids := ids st; documents := documents st; metadatas := metadatas st;
         embeddings := embeddings st; used_ids := used;
         printed := printed st ++ [MsgSkipping idx vid] |}
  | Some emb =>
      {| ids := ids st ++ [vid];
         documents := documents st ++ [safe_doc row];
         metadatas := metadatas st ++ [metadata_of row];
         embeddings := embeddings st ++ [emb];
         used_ids := used;
         printed := printed st |}
  end.

(** The identifier the loop gives the row at position [idx] (the value of
    [vid] at line 167), when [st] is the state before the row. *)
Definition assigned_vid (st : LoadState) (idx : nat) (row : Row F) : string :=
  unique_vid (used_ids st) (get_valid_video_id row idx).

(** The frame has a default index: the label of a row is its position. *)
Fixpoint iterrows_from (idx : nat) (rows : list (Row F)) (st : LoadState) : LoadState :=
  match rows with
  | [] => st
  | row :: rest => iterrows_from (S idx) rest (process_row st idx row)
  end.

Definition build (rows : list (Row F)) : LoadState := iterrows_from 0 rows initial_state.

(** What the loop keeps true of its lists. *)
Record loop_inv (st : LoadState) : Prop := {
  inv_nodup : NoDup (ids st);
  inv_used : ∀ x, x ∈ ids st -> x ∈ used_ids st;
  inv_docs : length (documents st) = length (ids st);
  inv_meta : length (metadatas st) = length (ids st);
  inv_emb : length (embeddings st) = length (ids st)
}.

(** How a later state extends an earlier one. *)
Record extends (st st' : LoadState) : Prop := {
  ext_used : used_ids st ⊆ used_ids st';
  ext_ids : ∃ t, ids st' = ids st ++ t ∧ ∀ x, x ∈ t -> x ∉ used_ids st;
  ext_docs : documents st `prefix_of` documents st';
  ext_meta : metadatas st `prefix_of` metadatas st';
  ext_emb : embeddings st `prefix_of` embeddings st';
  ext_printed : printed st `prefix_of` printed st'
}.

(** ** Batching *)

Definition BATCH : nat := 256.

Fixpoint range_go (fuel i stop step : nat) : list nat :=
  match fuel with
  | O => []
  | S fuel' => if (i <? stop)%nat then i :: range_go fuel' (i + step) stop step else []
  end.

(** [range(start, stop, step)] for a positive [step]; the loop runs at
    most [stop] times. *)
Definition range (start stop step : nat) : list nat := range_go stop start stop step.

(** [l[i:j]] *)
Definition slice {A} (l : list A) (i j : nat) : list A := take (j - i) (drop i l).

Definition batch_of (st : LoadState) (i j : nat) : Batch F :=
  {| batch_ids := slice (ids st) i j;
     batch_docs := slice (documents st) i j;
     batch_meta := slice (metadatas st) i j;
     batch_emb := slice (embeddings st) i j |}.

(** The batches [main] builds, in order. *)
Definition batches (st : LoadState) : list (Batch F) :=
  let n := length (ids st) in
  (fun i => batch_of st i ((i + BATCH) `min` n)) <$> range 0 n BATCH.


Definition runtime_error (text : string) : Exn :=
  {| exn_class := RuntimeError; exn_text := text |}.

Definition no_client : Exn :=
  runtime_error
    ("Failed to create a chromadb client. Try upgrading chromadb (`pip install --upgrade chromadb`) "
     +:+ "or install chroma-migrate if migrating old data (`pip install chroma-migrate`)."
     +:+ String (ascii_of_nat 10) ""
     +:+ "Current chromadb version should be 0.4.0 or higher for PersistentClient support.").

(** One construction strategy: [Some client] when it returned, [None]
    when it raised and the handler let control fall through. *)
Definition attempt (construct : Op X (Client F X)) (created : Msg) (failed : Exn -> M X unit)
    : M X (option (Client F X)) :=
  try_except (client ← call construct; print created;; mret (Some client))
             (fun ex => failed ex;; mret None).

(** A path is held as its text: [persist_directory] stands for the text
    of [Path(persist_directory)], which for the directory that [main]
    passes, [chroma_db], is the argument itself. *)
Definition create_chroma_client (persist_directory : string) : M X (Client F X) :=
  call (import_chromadb env);;
  let persist_path := persist_directory in
  call (mkdir_exist_ok env persist_path);;
  r ← attempt (PersistentClient env persist_path)
        (MsgPersistentClientCreated persist_path)
        (fun ex => if is_class AttributeError ex
                   then print MsgPersistentClientUnavailable
                   else print (MsgPersistentClientFailed ex));
  match r with
  | Some client => mret client
  | None =>
  r ← attempt (HttpClient env) MsgHttpClientCreated (fun _ => mret tt);
  match r with
  | Some client => mret client
  | None =>
  r ← attempt (Client_of_settings env "duckdb+parquet" persist_path)
        (MsgSettingsClientCreated persist_path)
        (fun ex => print (MsgSettingsFailed ex));
  match r with
  | Some client => mret client
  | None =>
  r ← attempt (Client_of_path env persist_path)
        (MsgPathClientCreated persist_path)
        (fun ex => print (MsgPathClientFailed ex));
  match r with
  | Some client => mret client
  | None =>
      raise no_client
  end end end end.

(** The specification of the bootstrapper, in its own words: the
    strategies in the order it lists them, and the first of them that does
    not raise, each tried in the state the failures before it left behind. *)
Definition strategies (persist_directory : string) : list (Op X (Client F X)) :=
  [ PersistentClient env persist_directory;
    HttpClient env;
    Client_of_settings env "duckdb+parquet" persist_directory;
    Client_of_path env persist_directory ].

Fixpoint first_success {A} (ops : list (Op X A)) (x : X) : option A * X :=
  match ops with
  | [] => (None, x)
  | op :: rest =>
      match op x with
      | (Ok a, x') => (Some a, x')
      | (Raise _, x') => first_success rest x'
      end
  end.

Definition fetch (method : option (string -> Op X (Collection F X))) (name : string) (used : Msg)
    : M X (option (Collection F X)) :=
  match method with
  | Some f => collection ← call (f name); print used;; mret (Some collection)
  | None => mret None
  end.

Definition get_or_create_collection (client : Client F X) (name : string) : M X (Collection F X) :=
  r ← try_except
        (match client_get_or_create_collection client with
         | Some f =>
             collection ← call (f name); print (MsgUsingGetOrCreate name);;
             mret (Some collection)
         | None =>
             r ← match client_create_collection client with
                 | Some f =>
                     try_except
                       (collection ← call (f name); print (MsgUsingCreate name);;
                        mret (Some collection))
                       (fun _ => fetch (client_get_collection client) name
                                   (MsgUsingGetExisting name))
                 | None => mret None
                 end;
             match r with
             | Some collection => mret (Some collection)
             | None => fetch (client_get_collection client) name (MsgUsingGet name)
             end
         end)
        (fun e => print (MsgCollectionError e);; mret None);
  match r with
  | Some collection => mret collection
  | None => raise (runtime_error "Unable to create or fetch collection from chromadb client.")
  end.

(** The body of the batch loop, lines 224-248. *)
Definition insert_batch (collection : Collection F X) (st : LoadState) (i : nat) : M X unit :=
  let n := length (ids st) in
  let j := (i + BATCH) `min` n in
  let b := batch_of st i j in
  try_except
    (call (add_kw collection b);;
     print (MsgInserted (i / BATCH + 1) i (j - 1)))
    (fun te =>
       if is_class TypeError te then
         print (MsgAddTypeError te);;
         try_except
           (call (add_positional collection b);;
            print (MsgInsertedPositional (i / BATCH + 1) i (j - 1)))
           (fun e2 =>
              print (MsgPositionalFailed e2);;
              match upsert collection with
              | Some f => call (f b);; print (MsgUpserted (i / BATCH + 1) i (j - 1))
              | None => raise e2
              end)
       else raise te).

Definition insert_all (collection : Collection F X) (st : LoadState) : M X unit :=
  for_each (range 0 (length (ids st)) BATCH) (insert_batch collection st).

(** [len(documents) == n == len(metadatas) == len(embeddings)] *)
Definition lengths_match (st : LoadState) : bool :=
  let n := length (ids st) in
  (length (documents st) =? n)%nat && (n =? length (metadatas st))%nat
  && (length (metadatas st) =? length (embeddings st))%nat.

Definition report_directory : M X unit :=
  there ← reads (path_exists env PERSIST_DIR);
  if there : bool then
    print (MsgDirExists PERSIST_DIR);;
    files ← call (glob_names env PERSIST_DIR);
    match files with
    | [] => mret tt
    | _ :: _ =>
        print (MsgContains (length files));;
        for_each (take 5 files) (fun f => print (MsgFileName f));;
        if (5 <? length files)%nat then print (MsgMore (length files - 5)) else mret tt
    end
  else
    print (MsgDirNotCreated PERSIST_DIR);;
    print MsgMaybeInMemory.

Definition main : M X unit :=
  there ← reads (path_exists env CSV_WITH_EMB);
  if negb there then
    raise {| exn_class := FileNotFoundError;
             exn_text := CSV_WITH_EMB +:+ " not found. Run embed.py first." |}
  else
    print (MsgLoading CSV_WITH_EMB);;
    df ← call (read_csv env CSV_WITH_EMB);
    print (MsgLoaded (length (rows df)));;
    client ← create_chroma_client PERSIST_DIR;
    collection ← get_or_create_collection client COLLECTION_NAME;
    let st := build (rows df) in
    print_all (printed st);;
    match ids st with
    | [] => print MsgNoValidRows
    | _ :: _ =>
        let n := length (ids st) in
        if negb (lengths_match st) then
          raise {| exn_class := AssertionError;
                   exn_text := "Lengths of ids/documents/metadata/embeddings must match!" |}
        else
          print (MsgPreparing n COLLECTION_NAME);;
          insert_all collection st;;
          try_except
            (match client_persist client with
             | Some persist => call persist;; print MsgPersistCalled
             | None => mret tt
             end)
            (fun e => print (MsgPersistError e));;
          print MsgRule;;
          print (MsgSuccess n);;
          print (MsgCollection COLLECTION_NAME);;
          print (MsgPersistDir PERSIST_DIR);;
          print MsgRule;;
          report_directory
    end.

End Loader.

Arguments LoadState : clear implicits.

End VectorDb.


(** ** embed.py *)

Module Embed.
Section Embedder.

Context {F X : Type}.
Variable env : Env F X.

Definition INPUT_CSV :=
  "C:/Users/ramak/OneDrive/Desktop/InfosysSpringBoard/new_folder/master_data_preprocessed.csv".
Definition EMBED_CSV := "master_data_with_embeddings.csv".
Definition EMBED_MODEL_NAME := "all-MiniLM-L6-v2".

Definition embed_texts (texts : list (Cell F)) (model_name : string) (batch_size : nat)
    : M X (list (list (PyVal F))) :=
  model ← call (SentenceTransformer env model_name);
  embeddings ← call (encode model texts batch_size);
  mret embeddings.

(** [df[k]] for a column label [k] of the frame. *)
Definition column (k : string) (df : DataFrame (Cell F)) : list (Cell F) :=
  (fun row => default CNaN (row !! k)) <$> rows df.

(** [series.fillna(v)] *)
Definition fillna (v : Cell F) (series : list (Cell F)) : list (Cell F) :=
  (fun c => match c with CNaN => v | _ => c end) <$> series.

(** The columns of a frame after [df[k] = ...]. *)
Definition with_column (k : string) (cols : list string) : list string :=
  if bool_decide (k ∈ cols) then cols else cols ++ [k].

(** [df[k] = values] for a list [values].  A frame without rows takes its
    index from a non-empty list: it gets one row for each value, with NaN
    in the columns it had.  Otherwise the list must have one value for each
    row; [None]: it has not, and pandas raises ValueError. *)
Definition set_column (k : string) (values : list (list (PyVal F))) (df : DataFrame (Cell F))
    : option (DataFrame (Cell F + list (PyVal F))) :=
  match rows df, values with
  | [], _ :: _ =>
      Some {| columns := with_column k (columns df);
              rows := (fun v => <[k := inr v]>
                                  (gset_to_gmap (inl CNaN) (list_to_set (columns df))))
                      <$> values |}
  | _, _ =>
      if (length values =? length (rows df))%nat then
        Some {| columns := with_column k (columns df);
                rows := zip_with (fun row v => <[k := inr v]> (inl <$> row)) (rows df) values |}
      else None
  end.

(** The error of pandas when a column is set from a list of the wrong
    length. *)
Definition length_mismatch (values index : nat) : Exn :=
  {| exn_class := ValueError;
     exn_text := "Length of values (" +:+ pretty values
                 +:+ ") does not match length of index (" +:+ pretty index +:+ ")" |}.

Definition main : M X unit :=
  there ← reads (path_exists env INPUT_CSV);
  if negb there then
    raise {| exn_class := FileNotFoundError;
             exn_text := "Preprocessed CSV not found at " +:+ INPUT_CSV
                         +:+ ". Run preprocess.py first." |}
  else
    df ← call (read_csv env INPUT_CSV);
    if negb (bool_decide ("combined_text" ∈ columns df)) then
      raise {| exn_class := ValueError;
               exn_text := "combined_text column not found. Make sure you ran preprocess.py" |}
    else
      let texts := fillna (CStr "") (column "combined_text" df) in
      print (MsgEmbedding (length texts) EMBED_MODEL_NAME);;
      embeddings ← embed_texts texts EMBED_MODEL_NAME 64;
      match set_column "embedding" embeddings df with
      | None => raise (length_mismatch (length embeddings) (length (rows df)))
      | Some df' =>
          call (to_csv env df' EMBED_CSV);;
          print (MsgSaved EMBED_CSV)
      end.

End Embedder.
End Embed.


(** ** The embedding column as text *)

(** What the embedder writes for an embedding and how the loader's parsers
    read it.  [to_csv] writes [str(value)] for a cell that holds a list, and
    [read_csv] gives that text back as the cell; the text of a list and the
    reading of a list display follow the documentation of Python, of
    [ast.literal_eval] and of [json.loads]. *)
Module PyLiteral.
Section Display.

Context {F : Type}.




(** A character of a number or of a name: a digit, a letter, [+], [-],
    [.] or [_]. *)
Definition plain_char (c : ascii) : bool :=
  PyStr.between 48 57 c || PyStr.between 65 90 c || PyStr.between 97 122 c
  || (PyStr.code c =? 43)%N || (PyStr.code c =? 45)%N || (PyStr.code c =? 46)%N
  || (PyStr.code c =? 95)%N.

Definition plain (t : string) : bool :=
  PyStr.nonempty t && PyStr.forall_chars plain_char t.

(** [s] without its last character, which is to be [c]. *)
Fixpoint without_last (c : ascii) (s : string) : option string :=
  match s with
  | EmptyString => None
  | String d s' =>
      match s' with
      | EmptyString => if Ascii.eqb c d then Some EmptyString else None
      | String _ _ => String d <$> without_last c s'
      end
  end.

(** The items of a flat list display: [s] is [[]], or [[t1, ..., tn]] with
    every item made of plain characters.  [None]: [s] is some other text. *)
Definition display_items (s : string) : option (list string) :=
  match s with
  | String "[" t =>
      body ← without_last "]" t;
      match body with
      | EmptyString => Some []
      | String _ _ =>
          let items := PyStr.split ", " body in
          if forallb plain items then Some items else None
      end
  | _ => None
  end.


(** The parser that reads displays in this way and single items with [atom]. *)
Definition read_display (atom : string -> option (PyVal F)) (s : string) : option (PyVal F) :=
  match display_items s with
  | Some items => PList <$> mapM atom items
  | None => atom s
  end.

End Display.
End PyLiteral.



(** ** Sample values *)

(** Concrete inputs on which the definitions above are run.  A sample
    float has an integral value and is written as that integer. *)
Module Sample.

Definition parse (s : string) : option (PyVal Z) :=
  if String.eqb s "[1.0, 2.0]" then Some (PList [PFloat 1%Z; PFloat 2%Z])
  else if String.eqb s "7" then Some (PInt 7)
  else None.

Definition py : PyOps Z :=
  {| float_str := fun z => pretty z +:+ ".0";
     float_truthy := fun z => negb (z =? 0)%Z;
     float_int := Some;
     literal_eval := parse;
     json_loads := parse |}.

Definition row_abc : Row Z :=
  {[ "video_id" := CStr "abc"; "transcript" := CNaN;
     "combined_text" := CStr "hello"; "embedding" := CStr "[1.0, 2.0]" ]}.

Definition row_url : Row Z :=
  {[ "video_id" := CNaN; "url" := CStr "https://www.youtube.com/watch?v=dQw4&t=3";
     "embedding" := CStr "[1.0, 2.0]" ]}.

Definition row_bare : Row Z := {[ "embedding" := CStr "[1.0, 2.0]" ]}.

Definition row_vid3 : Row Z :=
  {[ "video_id" := CStr "vid_3"; "embedding" := CStr "[1.0, 2.0]" ]}.

Definition row_skipped : Row Z :=
  {[ "video_id" := CStr "abc"; "embedding" := CNaN ]}.

(** An environment that only records which operations were called. *)
Definition Trace := list string.

Definition outcome (name : string) (failure : option ExnClass) : Op Trace unit :=
  fun t =>
    match failure with
    | None => (Ok tt, t ++ [name])
    | Some c => (Raise {| exn_class := c; exn_text := name |}, t ++ [name])
    end.

Definition construct {A} (name : string) (failure : option ExnClass) (a : A) : Op Trace A :=
  fun t =>
    match failure with
    | None => (Ok a, t ++ [name])
    | Some c => (Raise {| exn_class := c; exn_text := name |}, t ++ [name])
    end.

Definition collection (kw positional : option ExnClass) (ups : option (option ExnClass))
    : Collection Z Trace :=
  {| add_kw := fun _ => outcome "add(keywords)" kw;
     add_positional := fun _ => outcome "add(positional)" positional;
     upsert := (fun failure _ => outcome "upsert" failure) <$> ups |}.

Definition client (c : Collection Z Trace) : Client Z Trace :=
  {| client_get_or_create_collection := Some (fun _ => construct "get_or_create_collection" None c);
     client_create_collection := None;
     client_get_collection := None;
     client_persist := None |}.

Definition encoder : Encoder Z Trace :=
  {| encode := fun texts _ => construct "encode" None ((fun _ => [PFloat 1%Z]) <$> texts) |}.

Definition env (file_there : bool) (frame : DataFrame (Cell Z))
    (mkdir persistent http settings path : option ExnClass) (c : Collection Z Trace)
    : Env Z Trace :=
  {| path_exists := fun _ _ => file_there;
     read_csv := fun _ => construct "read_csv" None frame;
     to_csv := fun _ _ => outcome "to_csv" None;
     glob_names := fun _ => construct "glob" None ["chroma.sqlite3"];
     import_chromadb := outcome "import chromadb" None;
     mkdir_exist_ok := fun _ => outcome "mkdir" mkdir;
     PersistentClient := fun _ => construct "PersistentClient" persistent (client c);
     HttpClient := construct "HttpClient" http (client c);
     Client_of_settings := fun _ _ => construct "Client(Settings)" settings (client c);
     Client_of_path := fun _ => construct "Client(path)" path (client c);
     SentenceTransformer := fun _ => construct "SentenceTransformer" None encoder |}.

Definition frame_no_text : DataFrame (Cell Z) :=
  {| columns := ["video_id"; "title"];
     rows := [ {[ "video_id" := CStr "abc"; "title" := CStr "t" ]} ] |}.

Definition frame_embedded : DataFrame (Cell Z) :=
  {| columns := ["video_id"; "transcript"; "combined_text"; "embedding"];
     rows := [row_abc] |}.

Definition world0 : World Trace := {| ext := []; console := [] |}.

Definition state_abc : VectorDb.LoadState Z := VectorDb.build py [row_abc].

End Sample.


(** ** Notions used to state further properties *)

(** ** The query parameter of a URL, as the specification words it *)

(** Not read off the source: the specification speaks of the identifier
    parsed from the URL's [v=] query parameter.  The query of a URL is the
    text after its first [?], up to a [#]; its parameters are the pieces
    between [&]; the value of the parameter [name] is what follows [name=]
    in the first piece that begins with it.  It is compared with what
    [VectorDb.vid_from_url] cuts out of the same text. *)
Module UrlSpec.





End UrlSpec.

Section Notions.

Context {F : Type}.
Variable py : PyOps F.

(** The row passes the test of line 170: its embedding gives a list. *)
Definition accepted (row : Row F) : Prop :=
  is_Some (VectorDb.ensure_embedding_list py (get row "embedding")).

#[global] Instance accepted_dec (row : Row F) : Decision (accepted row).
Proof. unfold accepted. apply _. Defined.

(** The frame has none of the three columns an identifier is read from. *)
Definition no_id_fields (row : Row F) : Prop :=
  row !! "video_id" = None ∧ row !! "id" = None ∧ row !! "url" = None.

End Notions.

(** The error [get_or_create_collection] ends with (line 110). *)
Definition no_collection : Exn :=
  VectorDb.runtime_error "Unable to create or fetch collection from chromadb client.".

(** ** More sample values *)

Module SampleMore.

(** A client with any choice of the three collection methods and of
    [persist]; [Some None]: the method returns, [Some (Some c)]: it raises
    an exception of class [c]. *)
Definition method (name : string) (m : option (option ExnClass))
    : option (string -> Op Sample.Trace (Collection Z Sample.Trace)) :=
  (fun failure _ => Sample.construct name failure (Sample.collection None None None)) <$> m.

Definition client (goc create get persist : option (option ExnClass))
    : Client Z Sample.Trace :=
  {| client_get_or_create_collection := method "get_or_create_collection" goc;
     client_create_collection := method "create_collection" create;
     client_get_collection := method "get_collection" get;
     client_persist := (fun failure => Sample.outcome "persist" failure) <$> persist |}.

(** The environment of [Sample.env] with a chosen client, directory
    listing and encoder output. *)
Definition env (file_there : bool) (frame : DataFrame (Cell Z)) (c : Client Z Sample.Trace)
    (files : list string) (vectors : list (list (PyVal Z))) (encode_failure : option ExnClass)
    : Env Z Sample.Trace :=
  {| path_exists := fun _ _ => file_there;
     read_csv := fun _ => Sample.construct "read_csv" None frame;
     to_csv := fun _ _ => Sample.outcome "to_csv" None;
     glob_names := fun _ => Sample.construct "glob" None files;
     import_chromadb := Sample.outcome "import chromadb" None;
     mkdir_exist_ok := fun _ => Sample.outcome "mkdir" None;
     PersistentClient := fun _ => Sample.construct "PersistentClient" None c;
     HttpClient := Sample.construct "HttpClient" None c;
     Client_of_settings := fun _ _ => Sample.construct "Client(Settings)" None c;
     Client_of_path := fun _ => Sample.construct "Client(path)" None c;
     SentenceTransformer := fun _ =>
       Sample.construct "SentenceTransformer" None
         {| encode := fun _ _ => Sample.construct "encode" encode_failure vectors |} |}.




Definition frame_skipped : DataFrame (Cell Z) :=
  {| columns := ["video_id"; "embedding"]; rows := [Sample.row_skipped] |}.

Definition frame_texts : DataFrame (Cell Z) :=
  {| columns := ["combined_text"];
     rows := [ {[ "combined_text" := CStr "a" ]}; {[ "combined_text" := CNaN ]} ] |}.

(** A frame whose only row is skipped, served by a well-behaved client. *)
Definition env_skipped : Env Z Sample.Trace :=
  env true frame_skipped (client (Some None) None None (Some None)) [] [] None.

(** An accepted row, and a collection whose keyword [add] raises ValueError. *)
Definition env_add_fails : Env Z Sample.Trace :=
  Sample.env true Sample.frame_embedded None None None None None
    (Sample.collection (Some ValueError) None (Some None)).

(** An accepted row, and a client whose [persist] raises. *)
Definition env_persist_fails : Env Z Sample.Trace :=
  env true Sample.frame_embedded (client (Some None) None None (Some (Some OtherException)))
    ["chroma.sqlite3"] [] None.

End SampleMore.

(** Floats are the integers, written with one decimal; the literal parser
    reads such numerals, the JSON parser reads them and [NaN]. *)
Module SampleText.

Definition numeral (s : string) : option Z :=
  match PyStr.split "." s with
  | [a; "0"] => if PyStr.forall_chars PyStr.isdecimal_char a then PyStr.to_int a else
                match a with
                | String "-" b => if PyStr.forall_chars PyStr.isdecimal_char b
                                  then PyStr.to_int a else None
                | _ => None
                end
  | _ => None
  end.

Definition literal_atom (s : string) : option (PyVal Z) := PFloat <$> numeral s.

Definition json_atom (s : string) : option (PyVal Z) :=
  if String.eqb s "NaN" then Some PNaN else PFloat <$> numeral s.

Definition py : PyOps Z :=
  {| float_str := fun z => pretty z +:+ ".0";
     float_truthy := fun z => negb (z =? 0)%Z;
     float_int := Some;
     literal_eval := PyLiteral.read_display literal_atom;
     json_loads := PyLiteral.read_display json_atom |}.

End SampleText.




(** * Properties *)

Import VectorDb.

(** ** Python string operations, run *)

Example strip_ex : PyStr.strip "  ab c	 " = "ab c".
Proof. reflexivity. Qed.

Example lower_ex : PyStr.lower "NaN" = "nan".
Proof. reflexivity. Qed.

Example split_ex1 :
  PyStr.split "v=" "https://y.t/watch?v=abc&t=1" = ["https://y.t/watch?"; "abc&t=1"].
Proof. reflexivity. Qed.

Example split_ex2 : PyStr.split "v=" "av=bv=" = ["a"; "b"; ""].
Proof. reflexivity. Qed.

Example split_ex3 : PyStr.split "&" "abc" = ["abc"].
Proof. reflexivity. Qed.

Example to_int_ex : PyStr.to_int " -1_000 " = Some (-1000)%Z /\ PyStr.to_int "1__0" = None.
Proof. split; reflexivity. Qed.

Example isdigit_ex : PyStr.isdigit "0123" = true ∧ PyStr.isdigit "" = false ∧
                     PyStr.isdigit "-1" = false.
Proof. repeat split; reflexivity. Qed.

(** ** Suffixed identifiers *)

Lemma append_self_inv (s t : string) : s +:+ t = s -> t = "".
Proof.
  induction s as [|c s IH]; simpl; [done|].
  intros H. injection H as H. by apply IH.
Qed.

Lemma suffixed_ne (original_vid : string) (k : nat) :
  suffixed original_vid k ≠ original_vid.
Proof.
  unfold suffixed. intros H. apply append_self_inv in H. discriminate H.
Qed.

Lemma suffixed_inj (original_vid : string) : Inj (=) (=) (suffixed original_vid).
Proof.
  intros j k H. unfold suffixed in H.
  apply (inj (String.app original_vid)) in H.
  apply (inj (String.app "_")) in H.
  by apply (inj pretty) in H.
Qed.

(** The candidates the loop tries: the base identifier, then the suffixed
    ones from [counter] on. *)
Lemma next_free_some (fuel : nat) (used : gset string) (o vid : string) (c : nat) (v : string) :
  next_free fuel used o vid c = Some v ->
  (v ∉ used) ∧
  (((vid ∉ used) ∧ v = vid) ∨
   (vid ∈ used ∧ ∃ k, c <= k ∧ v = suffixed o k ∧
                      ∀ j, c <= j < k -> suffixed o j ∈ used)).
Proof.
  revert vid c. induction fuel as [|fuel IH]; intros vid c; simpl.
  - case_decide; [done|]. intros [= <-]. auto.
  - case_decide as Hin.
    + intros Hv. apply IH in Hv as [Hfresh Hv]. split; [done|]. right. split; [done|].
      destruct Hv as [[_ ->]|[Hc (k & Hk & -> & Hall)]].
      * exists c. split; [lia|]. split; [done|]. intros j Hj. lia.
      * exists k. split; [lia|]. split; [done|]. intros j Hj.
        destruct (decide (j = c)) as [->|]; [done|]. apply Hall. lia.
    + intros [= <-]. auto.
Qed.

Lemma next_free_none (fuel : nat) (used : gset string) (o vid : string) (c : nat) :
  next_free fuel used o vid c = None ->
  vid ∈ used ∧ ∀ j, c <= j < c + fuel -> suffixed o j ∈ used.
Proof.
  revert vid c. induction fuel as [|fuel IH]; intros vid c; simpl.
  - case_decide; [|done]. intros _. split; [done|]. intros j Hj. lia.
  - case_decide as Hin; [|done].
    intros Hn. apply IH in Hn as [Hc Hall]. split; [done|]. intros j Hj.
    destruct (decide (j = c)) as [->|]; [done|]. apply Hall. lia.
Qed.

(** The while loop ends: [size used] further membership tests suffice. *)
Lemma next_free_enough_fuel (used : gset string) (o : string) :
  is_Some (next_free (size used) used o o 1).
Proof.
  destruct (next_free (size used) used o o 1) as [v|] eqn:E; [by eexists|].
  exfalso. apply next_free_none in E as [Ho Hall].
  set (cands := o :: (suffixed o <$> seq 1 (size used))).
  assert (NoDup cands) as Hnd.
  { apply NoDup_cons. split.
    - intros (k & Hk & _)%list_elem_of_fmap. by eapply suffixed_ne.
    - apply NoDup_fmap_2; [apply suffixed_inj|apply NoDup_seq]. }
  assert (list_to_set cands ⊆ used) as Hsub.
  { intros x Hx%elem_of_list_to_set. apply elem_of_cons in Hx as [->|Hx]; [done|].
    apply list_elem_of_fmap in Hx as (k & -> & Hk%elem_of_seq). apply Hall. lia. }
  apply subseteq_size in Hsub. rewrite size_list_to_set in Hsub; [|done].
  unfold cands in Hsub. simpl in Hsub. rewrite length_fmap, length_seq in Hsub. lia.
Qed.

Lemma unique_vid_eq (used : gset string) (o : string) :
  next_free (size used) used o o 1 = Some (unique_vid used o).
Proof.
  unfold unique_vid. by destruct (next_free_enough_fuel used o) as [v ->].
Qed.

Lemma unique_vid_fresh (used : gset string) (o : string) : unique_vid used o ∉ used.
Proof. by destruct (next_free_some _ _ _ _ _ _ (unique_vid_eq used o)). Qed.

Lemma unique_vid_unused (used : gset string) (o : string) :
  o ∉ used -> unique_vid used o = o.
Proof.
  intros Ho. destruct (next_free_some _ _ _ _ _ _ (unique_vid_eq used o)) as [_ [[_ ?]|[? _]]];
    done.
Qed.

Lemma unique_vid_used (used : gset string) (o : string) :
  o ∈ used ->
  ∃ k, 1 <= k ∧ unique_vid used o = suffixed o k ∧
       ∀ j, 1 <= j < k -> suffixed o j ∈ used.
Proof.
  intros Ho. destruct (next_free_some _ _ _ _ _ _ (unique_vid_eq used o)) as [_ [[? _]|[_ ?]]];
    done.
Qed.

(** ** The row loop *)

Section RowLoop.

Context {F : Type}.
Variable py : PyOps F.

Lemma extends_refl (st : LoadState F) : extends st st.
Proof.
  split; try done. exists []. rewrite app_nil_r. split; [done|]. by intros x ?%elem_of_nil.
Qed.

Lemma extends_trans (st1 st2 st3 : LoadState F) : extends st1 st2 -> extends st2 st3 -> extends st1 st3.
Proof.
  intros [U1 (t1 & E1 & N1) D1 M1 B1 P1] [U2 (t2 & E2 & N2) D2 M2 B2 P2].
  split; try (etrans; eassumption).
  exists (t1 ++ t2). rewrite E2, E1, (assoc_L (++)). split; [done|].
  intros x [?|Hx]%elem_of_app; [by apply N1|]. intros ?. by apply (N2 x Hx), U1.
Qed.

Lemma process_row_skip (st : LoadState F) idx row :
  ensure_embedding_list py (get row "embedding") = None ->
  process_row py st idx row =
    {| ids := ids st; documents := documents st; metadatas := metadatas st;
       embeddings := embeddings st;
       used_ids := {[assigned_vid py st idx row]} ∪ used_ids st;
       printed := printed st ++ [MsgSkipping idx (assigned_vid py st idx row)] |}.
Proof. intros H. unfold process_row. by rewrite H. Qed.

Lemma process_row_accept (st : LoadState F) idx row emb :
  ensure_embedding_list py (get row "embedding") = Some emb ->
  process_row py st idx row =
    {| ids := ids st ++ [assigned_vid py st idx row];
       documents := documents st ++ [safe_doc py row];
       metadatas := metadatas st ++ [metadata_of py row];
       embeddings := embeddings st ++ [emb];
       used_ids := {[assigned_vid py st idx row]} ∪ used_ids st;
       printed := printed st |}.
Proof. intros H. unfold process_row. by rewrite H. Qed.

Lemma process_row_used (st : LoadState F) idx row :
  used_ids (process_row py st idx row) = {[assigned_vid py st idx row]} ∪ used_ids st.
Proof. unfold process_row. by destruct (ensure_embedding_list _ _). Qed.

Lemma assigned_vid_fresh (st : LoadState F) idx row : assigned_vid py st idx row ∉ used_ids st.
Proof. apply unique_vid_fresh. Qed.

Lemma process_row_inv (st : LoadState F) idx row : loop_inv st -> loop_inv (process_row py st idx row).
Proof.
  intros [Hnd Hused Hd Hm He].
  pose proof (assigned_vid_fresh st idx row) as Hfresh.
  destruct (ensure_embedding_list py (get row "embedding")) as [emb|] eqn:E.
  - rewrite (process_row_accept _ _ _ _ E). split; simpl.
    + apply NoDup_app. split; [done|]. split; [|apply NoDup_singleton].
      intros x Hx ->%list_elem_of_singleton. by apply Hfresh, Hused.
    + intros x [?| ->%list_elem_of_singleton]%elem_of_app; set_solver.
    + rewrite !length_app. simpl. lia.
    + rewrite !length_app. simpl. lia.
    + rewrite !length_app. simpl. lia.
  - rewrite (process_row_skip _ _ _ E). split; simpl; try done.
    intros x Hx. set_solver.
Qed.

Lemma process_row_extends (st : LoadState F) idx row : extends st (process_row py st idx row).
Proof.
  pose proof (assigned_vid_fresh st idx row) as Hfresh.
  destruct (ensure_embedding_list py (get row "embedding")) as [emb|] eqn:E.
  - rewrite (process_row_accept _ _ _ _ E). split; simpl; try done;
      try (by apply prefix_app_r).
    + set_solver.
    + eexists. split; [done|]. by intros x ->%list_elem_of_singleton.
  - rewrite (process_row_skip _ _ _ E). split; simpl; try done;
      try (by apply prefix_app_r).
    + set_solver.
    + exists []. rewrite app_nil_r. split; [done|]. by intros x ?%elem_of_nil.
Qed.

Lemma iterrows_from_app idx rows1 rows2 (st : LoadState F) :
  iterrows_from py idx (rows1 ++ rows2) st =
  iterrows_from py (idx + length rows1) rows2 (iterrows_from py idx rows1 st).
Proof.
  revert idx st. induction rows1 as [|row rows1 IH]; intros idx st; simpl.
  - by rewrite Nat.add_0_r.
  - rewrite IH. f_equal. lia.
Qed.

Lemma iterrows_from_inv idx rows (st : LoadState F) : loop_inv st -> loop_inv (iterrows_from py idx rows st).
Proof.
  revert idx st. induction rows as [|row rows IH]; intros idx st Hst; simpl; [done|].
  by apply IH, process_row_inv.
Qed.

Lemma iterrows_from_extends idx rows (st : LoadState F) : extends st (iterrows_from py idx rows st).
Proof.
  revert idx st. induction rows as [|row rows IH]; intros idx st; simpl.
  - apply extends_refl.
  - eapply extends_trans; [apply process_row_extends|apply IH].
Qed.

Lemma initial_state_inv : loop_inv (initial_state : LoadState F).
Proof.
  split; simpl; try done; [apply NoDup_nil_2|]. by intros x ?%elem_of_nil.
Qed.

Lemma build_inv rows : loop_inv (build py rows).
Proof. apply iterrows_from_inv, initial_state_inv. Qed.

(** The run over [pre ++ row :: post], cut at [row]. *)
Lemma build_cut pre row post :
  build py (pre ++ row :: post) =
  iterrows_from py (S (length pre)) post
    (process_row py (build py pre) (length pre) row).
Proof.
  unfold build. rewrite iterrows_from_app. simpl. f_equal.
Qed.

(** The lists after a run of the loop, read off the accepted rows. *)
Lemma iterrows_from_lists idx (rows : list (Row F)) (st : LoadState F) :
  let st' := iterrows_from py idx rows st in
  documents st' = documents st ++ (safe_doc py <$> filter (accepted py) rows) ∧
  metadatas st' = metadatas st ++ (metadata_of py <$> filter (accepted py) rows) ∧
  embeddings st' =
    embeddings st ++ omap (fun row => ensure_embedding_list py (get row "embedding")) rows ∧
  length (ids st') = length (ids st) + length (filter (accepted py) rows).
Proof.
  revert idx st. induction rows as [|row rows IH]; intros idx st; cbv zeta.
  - simpl. rewrite !app_nil_r. repeat split; lia.
  - simpl iterrows_from. destruct (IH (S idx) (process_row py st idx row)) as (Hd & Hm & He & Hi).
    rewrite Hd, Hm, He, Hi. clear IH Hd Hm He Hi.
    destruct (ensure_embedding_list py (get row "embedding")) as [emb|] eqn:E.
    + rewrite (process_row_accept _ _ _ _ E). simpl.
      rewrite filter_cons_True by (unfold accepted; rewrite E; by eexists).
      rewrite E. simpl. rewrite <- !(assoc_L (++)). simpl.
      rewrite !length_app. simpl. repeat split; lia.
    + rewrite (process_row_skip _ _ _ E). simpl.
      rewrite filter_cons_False by (unfold accepted; rewrite E; by intros [? ?]).
      rewrite E. done.
Qed.

End RowLoop.

(** ** Splitting text *)

Lemma app_cons c s t : String c s +:+ t = String c (s +:+ t).
Proof. reflexivity. Qed.

Lemma rev_app_spec s1 s2 : String.rev_app s1 s2 = String.rev s1 +:+ s2.
Proof.
  unfold String.rev. revert s2. induction s1 as [|c s1 IH]; intros s2; simpl; [done|].
  rewrite IH, (IH (String c "")). 
  generalize (String.rev_app s1 "") as r. intros r.
  induction r as [|d r IHr]; [done|]. rewrite !app_cons. by rewrite IHr.
Qed.

Lemma split_go_scan sep pre cur t :
  PyStr.no_match sep pre t = true ->
  PyStr.split_go sep 0 cur (pre +:+ t) = PyStr.split_go sep 0 (String.rev_app pre cur) t.
Proof.
  revert cur. induction pre as [|c p IH]; intros cur; [done|].
  intros [Hp Hn]%andb_prop. rewrite app_cons in *. cbn [PyStr.split_go].
  apply negb_true_iff in Hp. rewrite Hp. rewrite IH by done. done.
Qed.

Lemma app_nil_r_str s : s +:+ "" = s.
Proof. induction s as [|c s IH]; [done|]. by rewrite app_cons, IH. Qed.

Lemma app_assoc_str s1 s2 s3 : (s1 +:+ s2) +:+ s3 = s1 +:+ (s2 +:+ s3).
Proof. induction s1 as [|c s IH]; [done|]. by rewrite !app_cons, IH. Qed.

Lemma rev_app_rev_app s1 s2 s3 :
  String.rev_app (String.rev_app s1 s2) s3 = String.rev_app s2 (s1 +:+ s3).
Proof.
  revert s2 s3. induction s1 as [|c s1 IH]; intros s2 s3; [done|].
  simpl. by rewrite IH.
Qed.

Lemma rev_rev_app s : String.rev (String.rev_app s "") = s.
Proof. unfold String.rev. rewrite rev_app_rev_app. simpl. apply app_nil_r_str. Qed.

Lemma split_go_head sep s cur :
  ∃ p, head (PyStr.split_go sep 0 cur s) = Some (String.rev cur +:+ p) ∧
       (p = "" ∨ ∃ c p' s', p = String c p' ∧ s = String c s').
Proof.
  revert cur. induction s as [|c s IH]; intros cur.
  - exists "". rewrite app_nil_r_str. auto.
  - cbn [PyStr.split_go]. destruct (String.prefix sep (String c s)).
    + exists "". rewrite app_nil_r_str. auto.
    + destruct (IH (String c cur)) as (p & -> & _). exists (String c p). split.
      * unfold String.rev at 1. simpl. rewrite rev_app_spec, app_assoc_str. reflexivity.
      * right. eauto.
Qed.

Lemma prefix_nil s : String.prefix "" s = true.
Proof. by destruct s. Qed.

Lemma no_match_two a b pre t :
  PyStr.contains (String a (String b "")) pre = false ->
  (∀ t', t ≠ String b t') ->
  PyStr.no_match (String a (String b "")) pre t = true.
Proof.
  intros Hc Ht. induction pre as [|c p IH]; [done|].
  cbn [PyStr.contains] in Hc. apply orb_false_elim in Hc as [Hp Hc].
  cbn [PyStr.no_match]. rewrite IH by done. rewrite andb_true_r. apply negb_true_iff.
  rewrite app_cons. simpl in *. destruct (ascii_dec a c); [|done].
  destruct p as [|d p].
  - change ("" +:+ t) with t. destruct t as [|d t]; [done|]. simpl.
    destruct (ascii_dec b d) as [->|]; [|done]. by destruct (Ht t).
  - rewrite app_cons. simpl in *. destruct (ascii_dec b d); [|done].
    rewrite prefix_nil in *. done.
Qed.

Lemma no_match_one a pre t :
  PyStr.contains (String a "") pre = false -> PyStr.no_match (String a "") pre t = true.
Proof.
  intros Hc. induction pre as [|c p IH]; [done|].
  cbn [PyStr.contains] in Hc. apply orb_false_elim in Hc as [Hp Hc].
  cbn [PyStr.no_match]. rewrite IH by done. rewrite andb_true_r. apply negb_true_iff.
  rewrite app_cons. simpl in *. destruct (ascii_dec a c); [|done].
  by rewrite prefix_nil in Hp.
Qed.

Lemma split_go_at_v cur tail :
  PyStr.split_go "v=" 0 cur (String "v" (String "=" tail)) =
  String.rev cur :: PyStr.split_go "v=" 0 "" tail.
Proof.
  cbn [PyStr.split_go].
  change (String.prefix "v=" (String "v" (String "=" tail))) with (String.prefix "" tail).
  by rewrite prefix_nil.
Qed.

Lemma split_go_at_amp cur tail :
  PyStr.split_go "&" 0 cur (String "&" tail) = String.rev cur :: PyStr.split_go "&" 0 "" tail.
Proof.
  cbn [PyStr.split_go].
  change (String.prefix "&" (String "&" tail)) with (String.prefix "" tail).
  by rewrite prefix_nil.
Qed.

(** X22.  On a URL whose first [v=] opens the [v] parameter, the parsed
    part is the value of that parameter: the text up to the next [&], or up
    to the end. *)
Lemma vid_from_url_query (pre v rest : string) :
  PyStr.contains "v=" pre = false ->
  PyStr.contains "v=" v = false ->
  PyStr.contains "&" v = false ->
  (rest = "" ∨ ∃ rest', rest = String "&" rest') ->
  vid_from_url (pre +:+ "v=" +:+ v +:+ rest) = Some v.
Proof.
  intros Hpre Hv Hamp Hrest. unfold vid_from_url, PyStr.split.
  change (pre +:+ "v=" +:+ v +:+ rest) with (pre +:+ String "v" (String "=" (v +:+ rest))).
  rewrite split_go_scan by (apply no_match_two; [done|by intros t' [=]]).
  rewrite split_go_at_v.
  rewrite split_go_scan.
  2:{ apply no_match_two; [done|]. intros t' ->. by destruct Hrest as [|[? [=]]]. }
  destruct (split_go_head "v=" rest (String.rev_app v "")) as (p & Hh & Hp).
  rewrite rev_rev_app in Hh.
  destruct (PyStr.split_go "v=" 0 (String.rev_app v "") rest) as [|p1 ps] eqn:E; [done|].
  simpl in Hh. injection Hh as ->. simpl.
  rewrite split_go_scan by (by apply no_match_one).
  destruct Hp as [->|(c & p' & s' & -> & ->)].
  - simpl. by rewrite rev_rev_app.
  - destruct Hrest as [|[rest' [= -> ->]]]; [done|].
    rewrite split_go_at_amp. simpl. by rewrite rev_rev_app.
Qed.



Example vid_from_url_watch : vid_from_url "https://y.t/watch?v=abc&t=1" = Some "abc".
Proof. reflexivity. Qed.

(** The cut is made at the first [v=] of the text, wherever it stands. *)
Example vid_from_url_first_occurrence : vid_from_url "https://y.t/?rev=2&v=abc" = Some "2".
Proof. reflexivity. Qed.

(** ** Identifier resolution *)

Section Identifier.

Context {F : Type}.
Variable py : PyOps F.






End Identifier.



Example resolve_explicit : get_valid_video_id Sample.py Sample.row_abc 0 = "abc".
Proof. vm_compute. reflexivity. Qed.

Example resolve_url : get_valid_video_id Sample.py Sample.row_url 5 = "dQw4".
Proof. vm_compute. reflexivity. Qed.

Example resolve_fallback : get_valid_video_id Sample.py Sample.row_bare 3 = "vid_3".
Proof. vm_compute. reflexivity. Qed.

(** ** Batching *)

Lemma range_go_lookup (fuel i stop step k x : nat) :
  range_go fuel i stop step !! k = Some x -> x = i + k * step ∧ x < stop.
Proof.
  revert i k. induction fuel as [|fuel IH]; intros i k; simpl; [done|].
  destruct (Nat.ltb_spec i stop) as [Hlt|Hge]; [|done].
  destruct k as [|k]; simpl.
  - intros [= <-]. lia.
  - intros [-> ?]%IH. lia.
Qed.

Lemma slice_length {A} (l : list A) (i j : nat) :
  j <= length l -> length (slice l i j) = j - i.
Proof. intros Hj. unfold slice. rewrite length_take, length_drop. lia. Qed.

(** The slices cut at the points of [range] are, joined, the list itself. *)
Lemma range_go_slices {A} (l : list A) (step fuel i : nat) :
  0 < step -> length l - i <= fuel ->
  concat ((fun i => slice l i ((i + step) `min` length l)) <$>
            range_go fuel i (length l) step) = drop i l.
Proof.
  intros Hstep. revert i. induction fuel as [|fuel IH]; intros i Hfuel; simpl.
  - rewrite drop_ge; [done|lia].
  - destruct (Nat.ltb_spec i (length l)) as [Hlt|Hge]; simpl.
    + rewrite IH by lia. unfold slice.
      destruct (Nat.le_gt_cases (i + step) (length l)) as [Hle|Hgt].
      * rewrite Nat.min_l by done. replace (i + step - i) with step by lia.
        rewrite <- drop_drop. apply take_drop.
      * rewrite Nat.min_r by lia. rewrite (drop_ge l (i + step)) by lia.
        rewrite app_nil_r. apply take_ge. rewrite length_drop. lia.
    + rewrite drop_ge; [done|lia].
Qed.

Lemma range_slices {A} (l : list A) (step : nat) :
  0 < step ->
  concat ((fun i => slice l i ((i + step) `min` length l)) <$> range 0 (length l) step) = l.
Proof.
  intros Hstep. unfold range. rewrite range_go_slices; [done|done|lia].
Qed.

Section Batches.

Context {F : Type}.

Lemma batches_lookup (st : LoadState F) (k : nat) (b : Batch F) :
  batches st !! k = Some b ->
  k * BATCH < length (ids st) ∧
  b = batch_of st (k * BATCH) ((k * BATCH + BATCH) `min` length (ids st)).
Proof.
  unfold batches. rewrite list_lookup_fmap.
  destruct (range 0 (length (ids st)) BATCH !! k) as [i|] eqn:E; [|done].
  simpl. intros [= <-]. apply range_go_lookup in E as [-> Hlt].
  rewrite Nat.add_0_l in Hlt. by rewrite Nat.add_0_l.
Qed.

Lemma batches_concat_ids (st : LoadState F) :
  concat (batch_ids <$> batches st) = ids st.
Proof.
  unfold batches. rewrite <- list_fmap_compose.
  etrans; [|apply (range_slices (ids st) BATCH); unfold BATCH; lia]. done.
Qed.

End Batches.

(** ** Rows with and without an embedding *)

Section Rows.

Context {F : Type}.
Variable py : PyOps F.




Lemma ensure_embedding_list_scalar (c : Cell F) :
  (∀ s, c ≠ CStr s) -> ensure_embedding_list py (Some c) = None.
Proof.
  intros H. unfold ensure_embedding_list. destruct c; try done. by destruct (H s).
Qed.

Lemma assigned_vid_not_later (st : LoadState F) idx row idx' rows :
  loop_inv st ->
  ∃ after,
    ids (iterrows_from py idx' rows (process_row py st idx row)) =
      ids (process_row py st idx row) ++ after ∧
    (assigned_vid py st idx row ∉ ids st) ∧ (assigned_vid py st idx row ∉ after).
Proof.
  intros Hst.
  destruct (ext_ids _ _ (iterrows_from_extends py idx' rows (process_row py st idx row)))
    as (after & E & Hafter).
  exists after. split; [done|]. split.
  - intros Hin. by apply (assigned_vid_fresh py st idx row), (inv_used _ Hst).
  - intros Hin. apply (Hafter _ Hin). rewrite process_row_used. set_solver.
Qed.


End Rows.


(** ** Identifiers within one run *)

Section Uniqueness.

Context {F : Type}.
Variable py : PyOps F.

(** Once a row has been processed its base identifier is taken, whether
    or not the row was inserted. *)
Lemma base_id_taken (st : LoadState F) idx row :
  get_valid_video_id py row idx ∈ used_ids (process_row py st idx row).
Proof.
  rewrite process_row_used. unfold assigned_vid.
  destruct (decide (get_valid_video_id py row idx ∈ used_ids st)) as [Hin|Hout].
  - set_solver.
  - rewrite (unique_vid_unused _ _ Hout). set_solver.
Qed.

Lemma base_id_taken_later (pre mid : list (Row F)) row :
  get_valid_video_id py row (length pre) ∈ used_ids (build py (pre ++ row :: mid)).
Proof.
  rewrite build_cut.
  apply (ext_used _ _ (iterrows_from_extends py _ mid _)), base_id_taken.
Qed.

Lemma vid_3_1_spelled : suffixed "vid_3" 1 = "vid_3_1".
Proof. reflexivity. Qed.

(** C2.  The identifiers of the inserted documents of a run are pairwise
    different.  The identifier given to a row is its base identifier when
    that is still unused, and otherwise the base followed by [_k] for the
    least [k >= 1] whose result is unused; so a row whose base identifier an
    earlier row of the run also resolved to always gets a suffixed one, and
    a second [vid_3] becomes [vid_3_1]. *)
Theorem inserted_ids_unique :
  (∀ rows, NoDup (ids (build py rows))) ∧
  (∀ (used : gset string) base,
     (unique_vid used base ∉ used) ∧
     ((base ∉ used) -> unique_vid used base = base) ∧
     (base ∈ used ->
      ∃ k, 1 <= k ∧ unique_vid used base = base +:+ "_" +:+ pretty k ∧
           ∀ j, 1 <= j < k -> base +:+ "_" +:+ pretty j ∈ used)) ∧
  (∀ pre mid row1 row2,
     let st2 := build py (pre ++ row1 :: mid) in
     let j := length (pre ++ row1 :: mid) in
     get_valid_video_id py row1 (length pre) = get_valid_video_id py row2 j ->
     ∃ k, 1 <= k ∧
          assigned_vid py st2 j row2 = get_valid_video_id py row2 j +:+ "_" +:+ pretty k) ∧
  (∀ used : gset string,
     "vid_3" ∈ used -> ("vid_3_1" ∉ used) -> unique_vid used "vid_3" = "vid_3_1").
Proof.
  split; [intros rows; apply (inv_nodup _ (build_inv py rows))|].
  split; [intros used base; split; [apply unique_vid_fresh|];
          split; [apply unique_vid_unused|apply unique_vid_used]|].
  split.
  - intros pre mid row1 row2 st2 j Hsame.
    destruct (unique_vid_used (used_ids st2) (get_valid_video_id py row2 j))
      as (k & Hk & Hv & _).
    { rewrite <- Hsame. apply base_id_taken_later. }
    by exists k.
  - intros used Hin Hout.
    destruct (unique_vid_used used "vid_3" Hin) as (k & Hk & Hv & Hall).
    destruct (decide (k = 1)) as [->|Hne]; [done|].
    destruct Hout. apply (Hall 1). lia.
Qed.

(** C9.  A row skipped for its embedding still takes its identifier: when
    an earlier skipped row and a later accepted row resolve to the same base
    identifier, the later row is inserted under a suffixed identifier; and
    when the skipped row was the first to take the base identifier, no
    inserted document carries it. *)
Theorem skipped_row_consumes_id (pre mid post : list (Row F)) (row1 row2 : Row F)
    (emb : list (PyVal F)) :
  let i := length pre in
  let j := length (pre ++ row1 :: mid) in
  let st1 := build py pre in
  let st2 := build py (pre ++ row1 :: mid) in
  let final := build py ((pre ++ row1 :: mid) ++ row2 :: post) in
  let base := get_valid_video_id py row2 j in
  ensure_embedding_list py (get row1 "embedding") = None ->
  ensure_embedding_list py (get row2 "embedding") = Some emb ->
  get_valid_video_id py row1 i = base ->
  ids (process_row py st1 i row1) = ids st1 ∧
  base ∈ used_ids st2 ∧
  (∃ k, 1 <= k ∧ assigned_vid py st2 j row2 = base +:+ "_" +:+ pretty k) ∧
  assigned_vid py st2 j row2 ≠ base ∧
  assigned_vid py st2 j row2 ∈ ids final ∧
  ((base ∉ used_ids st1) -> base ∉ ids final).
Proof.
  intros i j st1 st2 final base Hskip Hemb Hsame.
  assert (base ∈ used_ids st2) as Htaken.
  { subst base st2. rewrite <- Hsame. apply base_id_taken_later. }
  split; [by rewrite (process_row_skip py _ _ _ Hskip)|].
  split; [done|].
  destruct (unique_vid_used _ _ Htaken) as (k & Hk & Hv & _).
  split; [by exists k|].
  split; [unfold assigned_vid; fold j; fold base; rewrite Hv; apply suffixed_ne|].
  split.
  - subst final. rewrite build_cut. fold st2 j.
    apply (elem_of_prefix (ids (process_row py st2 j row2))).
    + rewrite (process_row_accept py _ _ _ _ Hemb). simpl.
      apply elem_of_app. right. by apply list_elem_of_singleton.
    + destruct (ext_ids _ _ (iterrows_from_extends py (S j) post (process_row py st2 j row2)))
        as (t & -> & _). by apply prefix_app_r.
  - intros Hfree. subst final. rewrite <- (assoc_L (++)). simpl. rewrite build_cut.
    fold st1 i.
    destruct (assigned_vid_not_later py st1 i row1 (S i) (mid ++ row2 :: post)
                (build_inv py pre)) as (after & -> & Hpre & Hafter).
    rewrite (process_row_skip py _ _ _ Hskip). simpl.
    unfold assigned_vid in Hpre, Hafter. rewrite Hsame in Hpre, Hafter.
    rewrite (unique_vid_unused _ _ Hfree) in Hpre, Hafter.
    by intros [?|?]%elem_of_app.
Qed.

(** C10.  The four accumulators have the same length after every row of
    every run: an accepted row appends exactly one entry to each of them
    (its identifier, its text, its metadata and its vector) and a skipped
    row appends to none, so each list has one entry for each accepted row,
    and the test made by the assertion before batching is true on every
    input. *)
Theorem accumulators_same_length (rows : list (Row F)) :
  let st := build py rows in
  let n := length (filter (accepted py) rows) in
  (length (ids st) = n ∧ length (documents st) = n ∧
   length (metadatas st) = n ∧ length (embeddings st) = n) ∧
  lengths_match st = true ∧
  (∀ k, lengths_match (build py (take k rows)) = true) ∧
  (∀ (s : LoadState F) idx row emb,
     ensure_embedding_list py (get row "embedding") = Some emb ->
     let s' := process_row py s idx row in
     ids s' = ids s ++ [assigned_vid py s idx row] ∧
     documents s' = documents s ++ [safe_doc py row] ∧
     metadatas s' = metadatas s ++ [metadata_of py row] ∧
     embeddings s' = embeddings s ++ [emb]) ∧
  (∀ (s : LoadState F) idx row,
     ensure_embedding_list py (get row "embedding") = None ->
     let s' := process_row py s idx row in
     ids s' = ids s ∧ documents s' = documents s ∧
     metadatas s' = metadatas s ∧ embeddings s' = embeddings s).
Proof.
  cbv zeta.
  assert (∀ l, lengths_match (build py l) = true) as Hmatch.
  { intros l. destruct (build_inv py l) as [_ _ Hd Hm He]. unfold lengths_match.
    rewrite Hd, Hm, He. by rewrite !Nat.eqb_refl. }
  destruct (build_inv py rows) as [_ _ Hd Hm He].
  destruct (iterrows_from_lists py 0 rows initial_state) as (_ & _ & _ & Hi).
  fold (build py rows) in Hi. change (length (ids (initial_state : LoadState F))) with 0 in Hi.
  split; [rewrite Hd, Hm, He; unfold Row in *; repeat split; lia|].
  split; [apply Hmatch|]. split; [intros k; apply Hmatch|]. split.
  - intros s idx row emb E. by rewrite (process_row_accept py _ _ _ _ E).
  - intros s idx row E. by rewrite (process_row_skip py _ _ _ E).
Qed.

End Uniqueness.

Lemma inserted_ids_unique_witness :
  NoDup (ids (build Sample.py [Sample.row_vid3; Sample.row_vid3])) ∧
  unique_vid {[ "vid_3" ]} "vid_3" = "vid_3_1".
Proof.
  destruct (inserted_ids_unique Sample.py) as (Hn & _ & _ & Hv).
  split; [apply Hn|]. apply Hv.
  - apply elem_of_singleton. reflexivity.
  - intros H%elem_of_singleton. discriminate H.
Defined.

Lemma accumulators_same_length_witness :
  let rows := [Sample.row_skipped; Sample.row_abc] in
  length (ids (build Sample.py rows)) = 1 ∧
  lengths_match (build Sample.py rows) = true ∧
  documents (process_row Sample.py initial_state 0 Sample.row_abc) = ["hello"].
Proof.
  intros rows.
  destruct (accumulators_same_length Sample.py rows) as ((Hn & _) & Hm & _ & Ha & _).
  split; [exact Hn|]. split; [exact Hm|].
  destruct (Ha initial_state 0 Sample.row_abc [PFloat 1%Z; PFloat 2%Z] eq_refl)
    as (_ & Hdoc & _).
  exact Hdoc.
Defined.

Example run_with_duplicates :
  let final := build Sample.py [Sample.row_vid3; Sample.row_bare; Sample.row_bare;
                                Sample.row_bare; Sample.row_skipped; Sample.row_abc] in
  ids final = ["vid_3"; "vid_1"; "vid_2"; "vid_3_1"; "abc_1"] ∧
  documents final = [""; ""; ""; ""; "hello"] ∧
  printed final = [MsgSkipping 4 "abc"].
Proof. vm_compute. done. Qed.

Lemma skipped_row_consumes_id_witness :
  (∃ k, 1 <= k ∧
     assigned_vid Sample.py (build Sample.py [Sample.row_skipped]) 1 Sample.row_abc =
     "abc" +:+ "_" +:+ pretty k) ∧
  ("abc" ∉ ids (build Sample.py [Sample.row_skipped; Sample.row_abc])).
Proof.
  destruct (skipped_row_consumes_id Sample.py [] [] [] Sample.row_skipped Sample.row_abc
              [PFloat 1%Z; PFloat 2%Z])
    as (_ & _ & Hk & _ & _ & Hfree).
  - vm_compute. reflexivity.
  - vm_compute. reflexivity.
  - vm_compute. reflexivity.
  - split; [exact Hk|]. apply Hfree. exact (not_elem_of_empty (C:=gset string) _).
Defined.

(** ** Document text *)

Section Documents.

Context {F : Type}.
Variable py : PyOps F.

Lemma pick_field_get (k : string) (row : Row F) : pick_field k row = get row k.
Proof.
  unfold pick_field, has_key, get. case_bool_decide as H; [done|].
  symmetry. by apply eq_None_not_Some.
Qed.

Lemma isna_or_None (x : option (Cell F)) : pd_isna x || is_None x = pd_isna x.
Proof. by destruct x as [[]|]. Qed.

Lemma passed_over_false (x : option (Cell F)) :
  passed_over py x = false -> pd_isna x = false.
Proof. unfold passed_over. by intros [_ ?]%orb_false_elim. Qed.

(** The three tests of lines 176-186, one after the other. *)
Lemma safe_doc_cases (row : Row F) :
  safe_doc py row =
    let a := get row "transcript_clean" in
    let b := get row "combined_text" in
    let c := get row "transcript" in
    if negb (passed_over py a) then py_str py a
    else if negb (passed_over py b) then py_str py b
    else if pd_isna c then "" else py_str py c.
Proof.
  unfold safe_doc, select_raw_doc. rewrite !pick_field_get, isna_or_None. cbv zeta.
  destruct (passed_over py (get row "transcript_clean")) eqn:Pa; simpl.
  - destruct (passed_over py (get row "combined_text")) eqn:Pb; simpl; [done|].
    by rewrite (passed_over_false _ Pb).
  - rewrite Pa. by rewrite (passed_over_false _ Pa).
Qed.

(** C4.  The document text of a row is a string that never renders a
    missing value: it is empty or the text form of a cell that is present
    and not NaN.  It is empty when all three candidate fields are missing.
    The candidates are taken in the order [transcript_clean],
    [combined_text], [transcript]: the first one that is neither missing nor
    falsy gives the text, the last one is taken whenever it is not missing.
    A row with [video_id] abc, no transcript and [combined_text] hello
    gets the text hello and the identifier abc. *)
Theorem document_text_never_missing (row : Row F) :
  let a := get row "transcript_clean" in
  let b := get row "combined_text" in
  let c := get row "transcript" in
  (pd_isna a = true -> pd_isna b = true -> pd_isna c = true -> safe_doc py row = "") ∧
  (safe_doc py row = "" ∨
   ∃ k cell, k ∈ ["transcript_clean"; "combined_text"; "transcript"] ∧
             row !! k = Some cell ∧ cell ≠ CNaN ∧
             safe_doc py row = py_str py (Some cell)) ∧
  (passed_over py a = false -> safe_doc py row = py_str py a) ∧
  (passed_over py a = true -> passed_over py b = false -> safe_doc py row = py_str py b) ∧
  (passed_over py a = true -> passed_over py b = true -> pd_isna c = false ->
   safe_doc py row = py_str py c) ∧
  (∀ idx, row !! "video_id" = Some (CStr "abc") ->
          pd_isna a = true -> row !! "combined_text" = Some (CStr "hello") ->
          safe_doc py row = "hello" ∧ get_valid_video_id py row idx = "abc").
Proof.
  cbv zeta. rewrite safe_doc_cases. cbv zeta.
  split; [|split; [|split; [|split; [|split]]]].
  - intros Ha Hb Hc. unfold passed_over. rewrite Ha, Hb, Hc. by rewrite !orb_true_r.
  - destruct (passed_over py (get row "transcript_clean")) eqn:Pa; simpl;
      [destruct (passed_over py (get row "combined_text")) eqn:Pb; simpl;
       [destruct (pd_isna (get row "transcript")) eqn:Pc; [by left|] | ] | ];
      right.
    + exists "transcript". unfold get in *.
      destruct (row !! "transcript") as [cell|] eqn:E; [|done].
      exists cell. split; [set_solver|]. by destruct cell.
    + exists "combined_text". apply passed_over_false in Pb. unfold get in *.
      destruct (row !! "combined_text") as [cell|] eqn:E; [|done].
      exists cell. split; [set_solver|]. by destruct cell.
    + exists "transcript_clean". apply passed_over_false in Pa. unfold get in *.
      destruct (row !! "transcript_clean") as [cell|] eqn:E; [|done].
      exists cell. split; [set_solver|]. by destruct cell.
  - by intros ->.
  - by intros -> ->.
  - by intros -> -> ->.
  - intros idx Hv Ha Hb. split.
    + unfold passed_over, get in *. rewrite Ha, Hb. by rewrite orb_true_r.
    + unfold get_valid_video_id, get. by rewrite Hv.
Qed.

End Documents.

Lemma document_text_never_missing_witness :
  safe_doc Sample.py Sample.row_abc = "hello" ∧
  get_valid_video_id Sample.py Sample.row_abc 0 = "abc" ∧
  safe_doc Sample.py Sample.row_bare = "".
Proof.
  destruct (document_text_never_missing Sample.py Sample.row_abc) as (_ & _ & _ & _ & _ & H).
  destruct (H 0) as [Hd Hi]; try reflexivity.
  split; [exact Hd|]. split; [exact Hi|].
  destruct (document_text_never_missing Sample.py Sample.row_bare) as (H0 & _).
  apply H0; reflexivity.
Defined.

Example document_of_sample_row :
  safe_doc Sample.py Sample.row_abc = "hello" ∧
  get_valid_video_id Sample.py Sample.row_abc 0 = "abc" ∧
  ids (build Sample.py [Sample.row_abc]) = ["abc"] ∧
  documents (build Sample.py [Sample.row_abc]) = ["hello"].
Proof. vm_compute. done. Qed.

(** ** Running effectful code *)

Section Monad.

Context {X : Type}.

Lemma run_bind {A B} (m : M X A) (k : A -> M X B) (w : World X) :
  (m ≫= k) w = match m w with
               | (Ok a, w') => k a w'
               | (Raise e, w') => (Raise e, w')
               end.
Proof. reflexivity. Qed.

Lemma run_call_ok {A} (op : Op X A) (w : World X) a x :
  op (ext w) = (Ok a, x) -> call op w = (Ok a, {| ext := x; console := console w |}).
Proof. unfold call. by intros ->. Qed.

Lemma run_call_raise {A} (op : Op X A) (w : World X) e x :
  op (ext w) = (Raise e, x) -> call op w = (Raise e, {| ext := x; console := console w |}).
Proof. unfold call. by intros ->. Qed.

Lemma for_each_app {A} (l1 l2 : list A) (body : A -> M X unit) (w : World X) :
  for_each (l1 ++ l2) body w =
    match for_each l1 body w with
    | (Ok _, w') => for_each l2 body w'
    | (Raise e, w') => (Raise e, w')
    end.
Proof.
  revert w. induction l1 as [|a l1 IH]; intros w; simpl; [done|].
  rewrite !run_bind. destruct (body a w) as [[[]|e] w']; [apply IH|done].
Qed.

(** A loop stops at the first iteration that raises. *)
Lemma for_each_stops {A} (l1 l2 : list A) (a : A) (body : A -> M X unit) (w w1 w2 : World X) e :
  for_each l1 body w = (Ok tt, w1) -> body a w1 = (Raise e, w2) ->
  for_each (l1 ++ a :: l2) body w = (Raise e, w2).
Proof.
  intros H1 H2. rewrite for_each_app, H1. simpl. by rewrite run_bind, H2.
Qed.

End Monad.

Ltac run_step :=
  repeat first
    [ rewrite run_bind
    | erewrite run_call_ok by eassumption
    | erewrite run_call_raise by eassumption
    | progress unfold print, print_all, raise
    | progress cbn [mret M_ret ext console fst snd] ].

(** ** Inserting the batches *)

Section Insertion.

Context {F X : Type}.

(** C6.  The keyword call is made first.  When it returns, the batch is
    done.  When it raises anything but a TypeError, that error leaves the
    loop at once.  When it raises a TypeError, the positional call is made
    in the state the first left; when that raises too, [upsert] is called if
    the collection has it and its outcome is the outcome of the batch, and
    otherwise the error of the positional call is raised again.  An error
    that leaves one batch ends the whole loop.  The batches are the
    accumulated records cut in order into pieces of 256, the last piece
    holding what remains (between 1 and 256 records). *)
Theorem insert_batch_fallbacks (collection : Collection F X) (st : LoadState F)
    (i : nat) (w : World X) :
  let n := length (ids st) in
  let j := (i + BATCH) `min` n in
  let b := batch_of st i j in
  let no := i / BATCH + 1 in
  let world x ms := {| ext := x; console := console w ++ ms |} in
  (∀ x1, add_kw collection b (ext w) = (Ok tt, x1) ->
     insert_batch collection st i w = (Ok tt, world x1 [MsgInserted no i (j - 1)])) ∧
  (∀ te x1, add_kw collection b (ext w) = (Raise te, x1) ->
     is_class TypeError te = false ->
     insert_batch collection st i w = (Raise te, {| ext := x1; console := console w |})) ∧
  (∀ te x1 x2, add_kw collection b (ext w) = (Raise te, x1) ->
     is_class TypeError te = true ->
     add_positional collection b x1 = (Ok tt, x2) ->
     insert_batch collection st i w =
       (Ok tt, world x2 [MsgAddTypeError te; MsgInsertedPositional no i (j - 1)])) ∧
  (∀ te x1 e2 x2 f x3, add_kw collection b (ext w) = (Raise te, x1) ->
     is_class TypeError te = true ->
     add_positional collection b x1 = (Raise e2, x2) ->
     upsert collection = Some f -> f b x2 = (Ok tt, x3) ->
     insert_batch collection st i w =
       (Ok tt, world x3 [MsgAddTypeError te; MsgPositionalFailed e2;
                         MsgUpserted no i (j - 1)])) ∧
  (∀ te x1 e2 x2 f e3 x3, add_kw collection b (ext w) = (Raise te, x1) ->
     is_class TypeError te = true ->
     add_positional collection b x1 = (Raise e2, x2) ->
     upsert collection = Some f -> f b x2 = (Raise e3, x3) ->
     insert_batch collection st i w =
       (Raise e3, world x3 [MsgAddTypeError te; MsgPositionalFailed e2])) ∧
  (∀ te x1 e2 x2, add_kw collection b (ext w) = (Raise te, x1) ->
     is_class TypeError te = true ->
     add_positional collection b x1 = (Raise e2, x2) ->
     upsert collection = None ->
     insert_batch collection st i w =
       (Raise e2, world x2 [MsgAddTypeError te; MsgPositionalFailed e2])) ∧
  (∀ before i' rest w1 e w2,
     range 0 n BATCH = before ++ i' :: rest ->
     for_each before (insert_batch collection st) w = (Ok tt, w1) ->
     insert_batch collection st i' w1 = (Raise e, w2) ->
     insert_all collection st w = (Raise e, w2)) ∧
  concat (batch_ids <$> batches st) = ids st ∧
  (∀ k bk, batches st !! k = Some bk ->
     bk = batch_of st (k * BATCH) ((k * BATCH + BATCH) `min` n) ∧
     1 <= length (batch_ids bk) <= BATCH ∧
     (is_Some (batches st !! S k) -> length (batch_ids bk) = BATCH)).
Proof.
  intros n j b no world. unfold insert_batch. fold n j b no.
  split; [|split; [|split; [|split; [|split; [|split; [|split; [|split]]]]]]].
  - intros x1 H1. unfold try_except. run_step. reflexivity.
  - intros te x1 H1 Hc. unfold try_except. run_step. by rewrite Hc.
  - intros te x1 x2 H1 Hc H2. unfold try_except. run_step. rewrite Hc. run_step.
    unfold world. by rewrite <- (assoc_L (++)).
  - intros te x1 e2 x2 f x3 H1 Hc H2 Hu H3. unfold try_except. run_step.
    rewrite Hc. run_step. rewrite Hu. run_step.
    unfold world. by rewrite <- !(assoc_L (++)).
  - intros te x1 e2 x2 f e3 x3 H1 Hc H2 Hu H3. unfold try_except. run_step.
    rewrite Hc. run_step. rewrite Hu. run_step.
    unfold world. by rewrite <- !(assoc_L (++)).
  - intros te x1 e2 x2 H1 Hc H2 Hu. unfold try_except. run_step.
    rewrite Hc. run_step. rewrite Hu. run_step.
    unfold world. by rewrite <- !(assoc_L (++)).
  - intros before i' rest w1 e w2 Hr H1 H2. unfold insert_all. fold n. rewrite Hr.
    by eapply for_each_stops.
  - apply batches_concat_ids.
  - intros k bk Hk. destruct (batches_lookup _ _ _ Hk) as [Hlt ->]. fold n in Hlt |- *.
    split; [done|]. simpl. rewrite slice_length by lia.
    split; [unfold BATCH in *; lia|].
    intros [bk' Hk']. destruct (batches_lookup _ _ _ Hk') as [Hlt' _]. fold n in Hlt'.
    unfold BATCH in *. lia.
Qed.

End Insertion.

Lemma insert_batch_fallbacks_witness :
  let c := Sample.collection (Some TypeError) (Some OtherException) (Some None) in
  (insert_batch c Sample.state_abc 0 Sample.world0).1 = Ok tt.
Proof.
  intros c.
  destruct (insert_batch_fallbacks c Sample.state_abc 0 Sample.world0)
    as (_ & _ & _ & H & _).
  erewrite H; reflexivity.
Defined.

Example insert_batch_upsert_path :
  let c := Sample.collection (Some TypeError) (Some OtherException) (Some None) in
  let r := insert_batch c Sample.state_abc 0 Sample.world0 in
  r.1 = Ok tt ∧
  ext r.2 = ["add(keywords)"; "add(positional)"; "upsert"] ∧
  console r.2 =
    [MsgAddTypeError {| exn_class := TypeError; exn_text := "add(keywords)" |};
     MsgPositionalFailed {| exn_class := OtherException; exn_text := "add(positional)" |};
     MsgUpserted 1 0 0].
Proof. vm_compute. done. Qed.

Example insert_batch_other_error_propagates :
  let c := Sample.collection (Some ValueError) None (Some None) in
  let r := insert_batch c Sample.state_abc 0 Sample.world0 in
  r.1 = Raise {| exn_class := ValueError; exn_text := "add(keywords)" |} ∧
  ext r.2 = ["add(keywords)"].
Proof. vm_compute. done. Qed.

Example insert_batch_exhausted :
  let c := Sample.collection (Some TypeError) (Some OtherException) None in
  let r := insert_all c Sample.state_abc Sample.world0 in
  r.1 = Raise {| exn_class := OtherException; exn_text := "add(positional)" |} ∧
  ext r.2 = ["add(keywords)"; "add(positional)"].
Proof. vm_compute. done. Qed.

(** ** Creating the client *)

Section Bootstrap.

Context {F X : Type}.
Variable env : Env F X.

Lemma attempt_ok (construct : Op X (Client F X)) created failed (w : World X) c x :
  construct (ext w) = (Ok c, x) ->
  attempt construct created failed w =
    (Ok (Some c), {| ext := x; console := console w ++ [created] |}).
Proof. intros H. unfold attempt, try_except. run_step. done. Qed.

Lemma attempt_raise (construct : Op X (Client F X)) created failed (w : World X) e x :
  construct (ext w) = (Raise e, x) ->
  (∀ w', ∃ ms, failed e w' = (Ok tt, {| ext := ext w'; console := console w' ++ ms |})) ->
  ∃ ms, attempt construct created failed w =
          (Ok None, {| ext := x; console := console w ++ ms |}).
Proof.
  intros H Hf. unfold attempt, try_except. run_step.
  destruct (Hf {| ext := x; console := console w |}) as [ms ->]. by exists ms.
Qed.

(** What [create_chroma_client] does once the import and the directory
    creation have returned: the first strategy that does not raise. *)
Lemma create_chroma_client_strategies (dir : string) (w : World X) x1 x2 :
  import_chromadb env (ext w) = (Ok tt, x1) ->
  mkdir_exist_ok env dir x1 = (Ok tt, x2) ->
  let r := create_chroma_client env dir w in
  match first_success (strategies env dir) x2 with
  | (Some client, x') => r.1 = Ok client ∧ ext r.2 = x'
  | (None, x') => r.1 = Raise no_client ∧ ext r.2 = x'
  end.
Proof.
  intros Hi Hm. cbv zeta. unfold create_chroma_client, strategies, first_success.
  run_step.
  destruct (PersistentClient env dir x2) as [[c|e] x3] eqn:E1.
  { erewrite attempt_ok by done. done. }
  edestruct attempt_raise as [ms1 ->]; [exact E1| |].
  { intros w'. cbv beta. destruct (is_class AttributeError e); eexists; reflexivity. }
  destruct (HttpClient env x3) as [[c|e2] x4] eqn:E2.
  { run_step. erewrite attempt_ok by done. done. }
  run_step. edestruct attempt_raise as [ms2 ->]; [exact E2| |].
  { intros w'. exists []. unfold mret, M_ret. by rewrite app_nil_r; destruct w'. }
  destruct (Client_of_settings env "duckdb+parquet" dir x4) as [[c|e3] x5] eqn:E3.
  { run_step. erewrite attempt_ok by done. done. }
  run_step. edestruct attempt_raise as [ms3 ->]; [exact E3| |].
  { intros w'. eexists; reflexivity. }
  destruct (Client_of_path env dir x5) as [[c|e4] x6] eqn:E4.
  { run_step. erewrite attempt_ok by done. done. }
  run_step. edestruct attempt_raise as [ms4 ->]; [exact E4| |].
  { intros w'. eexists; reflexivity. }
  done.
Qed.

(** C7, as the code has it.  The import of the client library and the
    creation of the persist directory come first, and an error of either
    leaves the function before any strategy is tried.  Once both have
    returned, the strategies are tried in the order persistent, network
    service, legacy settings, path, each in the state the failures before it
    left; the client of the first one that does not raise is returned, and
    the function raises (its RuntimeError) exactly when all four raise. *)
Theorem create_chroma_client_first_success (dir : string) (w : World X) :
  let r := create_chroma_client env dir w in
  match import_chromadb env (ext w) with
  | (Raise e, x1) => r = (Raise e, {| ext := x1; console := console w |})
  | (Ok _, x1) =>
      match mkdir_exist_ok env dir x1 with
      | (Raise e, x2) => r = (Raise e, {| ext := x2; console := console w |})
      | (Ok _, x2) =>
          match first_success (strategies env dir) x2 with
          | (Some client, x') => r.1 = Ok client ∧ ext r.2 = x'
          | (None, x') =>
              r.1 = Raise no_client ∧ ext r.2 = x'
          end ∧
          ((∃ e, r.1 = Raise e) ↔ (first_success (strategies env dir) x2).1 = None)
      end
  end.
Proof.
  cbv zeta.
  destruct (import_chromadb env (ext w)) as [[[]|e] x1] eqn:Hi.
  2:{ unfold create_chroma_client. by run_step. }
  destruct (mkdir_exist_ok env dir x1) as [[[]|e] x2] eqn:Hm.
  2:{ unfold create_chroma_client. by run_step. }
  pose proof (create_chroma_client_strategies dir w x1 x2 Hi Hm) as H. cbv zeta in H.
  split; [exact H|].
  destruct (first_success (strategies env dir) x2) as [[client|] x']; simpl.
  - destruct H as [-> _]. split; [by intros [e ?]|done].
  - destruct H as [-> _]. split; [done|]. intros _. by eexists.
Qed.

End Bootstrap.

Lemma create_chroma_client_first_success_witness :
  let env := Sample.env true Sample.frame_embedded None (Some AttributeError) None None None
               (Sample.collection None None None) in
  (create_chroma_client env "chroma_db" Sample.world0).1 =
    Ok (Sample.client (Sample.collection None None None)).
Proof.
  intros env.
  pose proof (create_chroma_client_first_success env "chroma_db" Sample.world0) as H.
  destruct H as [[H _] _]. exact H.
Defined.

(** C7 as the specification words it does not hold: with a persist
    directory that cannot be created the function raises although the
    first strategy would return a client, and no strategy is tried. *)
Lemma create_chroma_client_mkdir_counterexample :
  let env := Sample.env true Sample.frame_embedded (Some OtherException) None None None None
               (Sample.collection None None None) in
  let r := create_chroma_client env "chroma_db" Sample.world0 in
  ¬ ((∃ e, r.1 = Raise e) ↔
     (first_success (strategies env "chroma_db") (ext Sample.world0)).1 = None) ∧
  r.1 = Raise {| exn_class := OtherException; exn_text := "mkdir" |} ∧
  ext r.2 = ["import chromadb"; "mkdir"] ∧
  (∀ x, (first_success (strategies env "chroma_db") x).1 ≠ None).
Proof.
  cbv zeta. split; [|split; [|split]].
  - intros [H _]. discriminate H. by eexists.
  - reflexivity.
  - reflexivity.
  - intros x. discriminate.
Qed.

Example create_chroma_client_falls_back_to_http :
  let env := Sample.env true Sample.frame_embedded None (Some AttributeError) None None None
               (Sample.collection None None None) in
  let r := create_chroma_client env "chroma_db" Sample.world0 in
  r.1 = Ok (Sample.client (Sample.collection None None None)) ∧
  ext r.2 = ["import chromadb"; "mkdir"; "PersistentClient"; "HttpClient"] ∧
  console r.2 = [MsgPersistentClientUnavailable; MsgHttpClientCreated].
Proof. vm_compute. done. Qed.

Example create_chroma_client_exhausted :
  let env := Sample.env true Sample.frame_embedded None (Some OtherException)
               (Some OtherException) (Some OtherException) (Some OtherException)
               (Sample.collection None None None) in
  let r := create_chroma_client env "chroma_db" Sample.world0 in
  r.1 = Raise no_client ∧
  ext r.2 = ["import chromadb"; "mkdir"; "PersistentClient"; "HttpClient";
             "Client(Settings)"; "Client(path)"].
Proof. vm_compute. done. Qed.

(** ** Missing input *)

Section MissingInput.

Context {F X : Type}.
Variable py : PyOps F.
Variable env : Env F X.

(** C8.  When the input file of the embedder is missing, the embedder
    raises FileNotFoundError and the world is as it was: nothing was read,
    encoded or written.  When the file is there but the frame read from it
    has no [combined_text] column, it raises ValueError in the state the
    read left: no encoder was built, nothing was encoded, written or
    printed.  When the input file of the loader is missing, the loader
    raises FileNotFoundError and the world is as it was: no client was
    built and nothing was inserted. *)
Theorem missing_input_is_fatal (w : World X) :
  (path_exists env Embed.INPUT_CSV (ext w) = false ->
   ∃ e, Embed.main env w = (Raise e, w) ∧ exn_class e = FileNotFoundError) ∧
  (∀ df x1,
     path_exists env Embed.INPUT_CSV (ext w) = true ->
     read_csv env Embed.INPUT_CSV (ext w) = (Ok df, x1) ->
     ("combined_text" ∉ columns df) ->
     ∃ e, Embed.main env w = (Raise e, {| ext := x1; console := console w |}) ∧
          exn_class e = ValueError) ∧
  (path_exists env CSV_WITH_EMB (ext w) = false ->
   ∃ e, VectorDb.main py env w = (Raise e, w) ∧ exn_class e = FileNotFoundError).
Proof.
  split; [|split].
  - intros H. unfold Embed.main. rewrite run_bind. unfold reads. rewrite H. simpl.
    eexists. split; reflexivity.
  - intros df x1 H Hr Hc. unfold Embed.main. rewrite run_bind. unfold reads. rewrite H.
    simpl. run_step. rewrite bool_decide_eq_false_2 by done. simpl.
    eexists. split; reflexivity.
  - intros H. unfold VectorDb.main. rewrite run_bind. unfold reads. rewrite H. simpl.
    eexists. split; reflexivity.
Qed.

End MissingInput.

Lemma missing_input_is_fatal_witness :
  let env := Sample.env false Sample.frame_embedded None None None None None
               (Sample.collection None None None) in
  ∃ e, VectorDb.main Sample.py env Sample.world0 = (Raise e, Sample.world0) ∧
       exn_class e = FileNotFoundError.
Proof.
  intros env.
  destruct (missing_input_is_fatal Sample.py env Sample.world0) as (_ & _ & H).
  apply H. reflexivity.
Defined.

Example embedder_without_input :
  let env := Sample.env false Sample.frame_embedded None None None None None
               (Sample.collection None None None) in
  let r := Embed.main env Sample.world0 in
  (∃ text, r.1 = Raise {| exn_class := FileNotFoundError; exn_text := text |}) ∧
  r.2 = Sample.world0.
Proof. cbv zeta. split; [eexists|]; reflexivity. Qed.

Example embedder_without_text_column :
  let env := Sample.env true Sample.frame_no_text None None None None None
               (Sample.collection None None None) in
  let r := Embed.main env Sample.world0 in
  (∃ text, r.1 = Raise {| exn_class := ValueError; exn_text := text |}) ∧
  ext r.2 = ["read_csv"] ∧ console r.2 = [].
Proof. cbv zeta. split; [eexists|split]; reflexivity. Qed.

Example loader_without_input :
  let env := Sample.env false Sample.frame_embedded None None None None None
               (Sample.collection None None None) in
  let r := VectorDb.main Sample.py env Sample.world0 in
  (∃ text, r.1 = Raise {| exn_class := FileNotFoundError; exn_text := text |}) ∧
  r.2 = Sample.world0.
Proof. cbv zeta. split; [eexists|]; reflexivity. Qed.

Example loader_full_run :
  let env := Sample.env true Sample.frame_embedded None None None None None
               (Sample.collection None None None) in
  let r := VectorDb.main Sample.py env Sample.world0 in
  r.1 = Ok tt ∧
  ext r.2 = ["read_csv"; "import chromadb"; "mkdir"; "PersistentClient";
             "get_or_create_collection"; "add(keywords)"; "glob"].
Proof. vm_compute. done. Qed.

Example embedder_full_run :
  let env := Sample.env true Sample.frame_embedded None None None None None
               (Sample.collection None None None) in
  let r := Embed.main env Sample.world0 in
  r.1 = Ok tt ∧
  ext r.2 = ["read_csv"; "SentenceTransformer"; "encode"; "to_csv"] ∧
  console r.2 = [MsgEmbedding 1 Embed.EMBED_MODEL_NAME; MsgSaved Embed.EMBED_CSV].
Proof. vm_compute. done. Qed.
(** ** The embedding column read back *)

Section RoundTrip.

Context {F : Type}.













Variable py : PyOps F.



End RoundTrip.



Example display_items_ex :
  PyLiteral.display_items "[1.0, -2.0]" = Some ["1.0"; "-2.0"] ∧
  PyLiteral.display_items "[]" = Some [] ∧
  PyLiteral.display_items "[1.0,2.0]" = None ∧
  PyLiteral.display_items "[[1.0], 2.0]" = None ∧
  PyLiteral.display_items "7" = None.
Proof. repeat split. Qed.

Example json_reads_NaN :
  json_loads SampleText.py "[NaN, 1.0]" = Some (PList [PNaN; PFloat 1%Z]).
Proof. reflexivity. Qed.

(** * Further properties *)

(** ** The row loop as a whole *)

Section LoopShape.

Context {F : Type}.
Variable py : PyOps F.

(** X1.  The accumulated documents, metadata and vectors are those of the
    accepted rows, in the order of the frame, and there is one identifier
    for each accepted row. *)
Theorem build_keeps_accepted_rows_in_order (rows : list (Row F)) :
  documents (build py rows) = safe_doc py <$> filter (accepted py) rows ∧
  metadatas (build py rows) = metadata_of py <$> filter (accepted py) rows ∧
  embeddings (build py rows) =
    omap (fun row => ensure_embedding_list py (get row "embedding")) rows ∧
  length (ids (build py rows)) = length (filter (accepted py) rows).
Proof. apply (iterrows_from_lists py 0 rows initial_state). Qed.

Lemma iterrows_from_used idx (rows : list (Row F)) (st : LoadState F) :
  size (used_ids (iterrows_from py idx rows st)) = size (used_ids st) + length rows.
Proof.
  revert idx st. induction rows as [|row rows IH]; intros idx st; simpl; [lia|].
  rewrite IH, process_row_used.
  rewrite size_union by (pose proof (assigned_vid_fresh py st idx row); set_solver).
  rewrite size_singleton. lia.
Qed.

Lemma iterrows_from_printed idx (rows : list (Row F)) (st : LoadState F) :
  let st' := iterrows_from py idx rows st in
  ∃ ms, printed st' = printed st ++ ms ∧
        length ms + length (filter (accepted py) rows) = length rows ∧
        ∀ m, m ∈ ms ->
          ∃ i row, m = MsgSkipping (idx + i) (assigned_vid py
                                               (iterrows_from py idx (take i rows) st)
                                               (idx + i) row) ∧
                   rows !! i = Some row ∧ ¬ accepted py row.
Proof.
  revert idx st. induction rows as [|row rows IH]; intros idx st; cbv zeta.
  - exists []. rewrite app_nil_r. split; [done|]. split; [done|]. by intros m ?%elem_of_nil.
  - simpl iterrows_from.
    destruct (IH (S idx) (process_row py st idx row)) as (ms & Hp & Hl & Hm).
    destruct (ensure_embedding_list py (get row "embedding")) as [emb|] eqn:E.
    + exists ms. rewrite Hp, (process_row_accept py _ _ _ _ E). simpl. split; [done|].
      rewrite filter_cons_True by (unfold accepted; rewrite E; by eexists).
      split; [simpl; lia|]. intros m Hin. destruct (Hm m Hin) as (i & r & -> & Hr & Hn).
      exists (S i), r. simpl. rewrite (process_row_accept py _ _ _ _ E).
      replace (idx + S i) with (S idx + i) by lia. done.
    + exists (MsgSkipping idx (assigned_vid py st idx row) :: ms).
      rewrite Hp, (process_row_skip py _ _ _ E). simpl. rewrite <- (assoc_L (++)).
      split; [done|].
      rewrite filter_cons_False by (unfold accepted; rewrite E; by intros [? ?]).
      split; [simpl; lia|]. intros m [->|Hin]%elem_of_cons.
      * exists 0, row. simpl. rewrite Nat.add_0_r. split; [done|]. split; [done|].
        unfold accepted. rewrite E. by intros [? ?].
      * destruct (Hm m Hin) as (i & r & -> & Hr & Hn).
        exists (S i), r. simpl. rewrite (process_row_skip py _ _ _ E).
        replace (idx + S i) with (S idx + i) by lia. done.
Qed.

(** X2.  Every row of the frame takes one identifier of its own, inserted
    or not: the set of used identifiers has as many elements as the frame
    has rows.  Every row is either inserted or reported: the skip messages
    and the inserted identifiers together are as many as the rows, and each
    message names the position of a row that was not accepted. *)
Theorem every_row_inserted_or_reported (rows : list (Row F)) :
  size (used_ids (build py rows)) = length rows ∧
  length (printed (build py rows)) + length (ids (build py rows)) = length rows ∧
  (∀ m, m ∈ printed (build py rows) ->
     ∃ i row vid, m = MsgSkipping i vid ∧ rows !! i = Some row ∧ ¬ accepted py row).
Proof.
  split; [|split].
  - unfold build. rewrite iterrows_from_used. simpl. done.
  - destruct (iterrows_from_printed 0 rows initial_state) as (ms & Hp & Hl & _).
    destruct (iterrows_from_lists py 0 rows initial_state) as (_ & _ & _ & Hi).
    unfold build in *. rewrite Hp, Hi. simpl. lia.
  - intros m Hin.
    destruct (iterrows_from_printed 0 rows initial_state) as (ms & Hp & _ & Hm).
    unfold build in Hin. rewrite Hp in Hin. simpl in Hin.
    destruct (Hm m Hin) as (i & row & -> & Hr & Hn). by eexists i, row, _.
Qed.

End LoopShape.

(** ** Frames without identifier columns *)

Section Fallback.

Context {F : Type}.
Variable py : PyOps F.

Lemma fallback_id_inj : Inj (=) (=) fallback_id.
Proof.
  intros i j H. unfold fallback_id in H.
  apply (inj (String.app "vid_")) in H. by apply (inj pretty) in H.
Qed.

Lemma no_id_fields_fallback (row : Row F) (idx : nat) :
  no_id_fields row -> get_valid_video_id py row idx = fallback_id idx.
Proof.
  intros (H1 & H2 & H3). unfold get_valid_video_id, get. by rewrite H1, H2, H3.
Qed.

(** Only positional identifiers below [idx] are in use. *)
Lemma positional_only_step (st : LoadState F) idx row :
  no_id_fields row ->
  (∀ x, x ∈ used_ids st -> ∃ j, j < idx ∧ x = fallback_id j) ->
  assigned_vid py st idx row = fallback_id idx ∧
  (∀ x, x ∈ used_ids (process_row py st idx row) -> ∃ j, j < S idx ∧ x = fallback_id j).
Proof.
  intros Hrow Hst.
  assert (assigned_vid py st idx row = fallback_id idx) as Hv.
  { unfold assigned_vid. rewrite (no_id_fields_fallback _ _ Hrow).
    apply unique_vid_unused. intros (j & Hj & E%fallback_id_inj)%Hst. lia. }
  split; [done|]. intros x. rewrite process_row_used, Hv.
  intros [->%elem_of_singleton|Hx]%elem_of_union.
  - exists idx. split; [lia|done].
  - destruct (Hst x Hx) as (j & Hj & ->). exists j. split; [lia|done].
Qed.

Lemma positional_only_run idx (rows : list (Row F)) (st : LoadState F) :
  Forall no_id_fields rows ->
  (∀ x, x ∈ used_ids st -> ∃ j, j < idx ∧ x = fallback_id j) ->
  ∀ x, x ∈ used_ids (iterrows_from py idx rows st) ->
       ∃ j, j < idx + length rows ∧ x = fallback_id j.
Proof.
  intros Hrows. revert idx st.
  induction Hrows as [|row rows Hrow Hrows IH]; intros idx st Hst x; simpl.
  - intros Hx. destruct (Hst x Hx) as (j & Hj & ->). exists j. split; [lia|done].
  - intros Hx. destruct (positional_only_step st idx row Hrow Hst) as [_ Hst'].
    destruct (IH (S idx) _ Hst' x Hx) as (j & Hj & ->). exists j. split; [lia|done].
Qed.

(** X3.  In a frame that has none of the columns [video_id], [id] and
    [url], the row at position [i] is given the identifier [vid_<i>], never
    a suffixed one; it is among the inserted identifiers when the row is
    accepted, and every inserted identifier is of that form. *)
Theorem positional_ids_are_not_suffixed (rows : list (Row F)) :
  Forall no_id_fields rows ->
  (∀ i row, rows !! i = Some row ->
     assigned_vid py (build py (take i rows)) i row = "vid_" +:+ pretty i ∧
     (accepted py row -> "vid_" +:+ pretty i ∈ ids (build py rows))) ∧
  (∀ x, x ∈ ids (build py rows) -> ∃ i, i < length rows ∧ x = "vid_" +:+ pretty i).
Proof.
  intros Hrows. split.
  - intros i row Hi.
    assert (i < length rows) as Hlt by (by eapply lookup_lt_Some).
    assert (assigned_vid py (build py (take i rows)) i row = fallback_id i) as Hv.
    { apply positional_only_step; [by eapply Forall_lookup_1|].
      intros x Hx. unfold build in Hx.
      apply (positional_only_run 0 (take i rows) initial_state) in Hx.
      - rewrite length_take in Hx. destruct Hx as (j & Hj & ->). exists j. split; [lia|done].
      - by apply Forall_take.
      - by intros y ?%elem_of_empty. }
    split; [exact Hv|]. intros [emb Hemb].
    rewrite <- (take_drop_middle rows i row Hi), build_cut.
    rewrite length_take, Nat.min_l by lia.
    apply (elem_of_prefix (ids (process_row py (build py (take i rows)) i row))).
    + rewrite (process_row_accept py _ _ _ _ Hemb). simpl. rewrite Hv.
      apply elem_of_app. right. by apply list_elem_of_singleton.
    + destruct (ext_ids _ _ (iterrows_from_extends py (S i) (drop (S i) rows)
                               (process_row py (build py (take i rows)) i row)))
        as (t & -> & _). by apply prefix_app_r.
  - intros x Hx. apply (inv_used _ (build_inv py rows)) in Hx. unfold build in Hx.
    apply (positional_only_run 0 rows initial_state) in Hx; [done|done|].
    by intros y ?%elem_of_empty.
Qed.

End Fallback.

Lemma positional_ids_are_not_suffixed_witness :
  assigned_vid Sample.py (build Sample.py [Sample.row_bare]) 1 Sample.row_bare = "vid_1" ∧
  "vid_1" ∈ ids (build Sample.py [Sample.row_bare; Sample.row_bare]).
Proof.
  assert (Forall no_id_fields [Sample.row_bare; Sample.row_bare]) as H.
  { repeat constructor. }
  destruct (positional_ids_are_not_suffixed Sample.py _ H) as [Hrow _].
  destruct (Hrow 1 Sample.row_bare) as [Hv Hin]; [reflexivity|].
  split; [exact Hv|]. apply Hin. eexists. reflexivity.
Defined.

(** ** Batches *)

Section BatchShape.

Context {F : Type}.
Variable py : PyOps F.

Lemma range_go_length (fuel i stop step : nat) :
  0 < step -> stop - i <= fuel ->
  length (range_go fuel i stop step) = (stop - i + step - 1) / step.
Proof.
  intros Hstep. revert i. induction fuel as [|fuel IH]; intros i Hfuel; simpl.
  - replace (stop - i) with 0 by lia. symmetry. apply Nat.div_small. lia.
  - destruct (Nat.ltb_spec i stop) as [Hlt|Hge]; simpl.
    + rewrite IH by lia. destruct (Nat.le_gt_cases step (stop - i)) as [Hle|Hgt].
      * replace (stop - i + step - 1) with (stop - (i + step) + step - 1 + 1 * step) by lia.
        rewrite Nat.div_add by lia. lia.
      * replace (stop - (i + step)) with 0 by lia.
        rewrite (Nat.div_small (0 + step - 1)) by lia.
        apply (Nat.div_unique _ _ 1 (stop - i - 1)); lia.
    + replace (stop - i) with 0 by lia. symmetry. apply Nat.div_small. lia.
Qed.

Lemma concat_slices_of {A} (l : list A) (n : nat) :
  length l = n ->
  concat ((fun i => slice l i ((i + BATCH) `min` n)) <$> range 0 n BATCH) = l.
Proof. intros <-. apply range_slices. unfold BATCH. lia. Qed.

(** X4.  The store is handed parallel arrays: in every batch of a run the
    four lists have the same length, and each of the four accumulators is
    the concatenation of its batch slices, so the entries of one record
    stay at the same position of the same batch. *)
Theorem batches_are_parallel (rows : list (Row F)) :
  let st := build py rows in
  (∀ b, b ∈ batches st ->
     length (batch_docs b) = length (batch_ids b) ∧
     length (batch_meta b) = length (batch_ids b) ∧
     length (batch_emb b) = length (batch_ids b)) ∧
  concat (batch_ids <$> batches st) = ids st ∧
  concat (batch_docs <$> batches st) = documents st ∧
  concat (batch_meta <$> batches st) = metadatas st ∧
  concat (batch_emb <$> batches st) = embeddings st.
Proof.
  intros st. destruct (build_inv py rows) as [_ _ Hd Hm He]. fold st in Hd, Hm, He.
  split.
  - intros b (k & Hk)%list_elem_of_lookup.
    destruct (batches_lookup _ _ _ Hk) as [Hlt ->]. simpl.
    unfold slice. rewrite !length_take, !length_drop. lia.
  - unfold batches. rewrite <- !list_fmap_compose.
    split; [exact (concat_slices_of (ids st) _ eq_refl)|].
    split; [exact (concat_slices_of (documents st) _ Hd)|].
    split; [exact (concat_slices_of (metadatas st) _ Hm)|].
    exact (concat_slices_of (embeddings st) _ He).
Qed.

(** X5.  A run with [n] accepted rows makes [n / 256] batches, rounded
    up; none when no row was accepted. *)
Theorem number_of_batches (st : LoadState F) :
  length (batches st) = (length (ids st) + 255) / 256.
Proof.
  unfold batches, range. rewrite length_fmap, range_go_length; unfold BATCH; [|lia|lia].
  f_equal. lia.
Qed.

End BatchShape.

(** ** Inserting every batch *)

Section InsertAll.

Context {F X : Type}.

Lemma for_each_ok {A} (l : list A) (body : A -> M X unit) (step : A -> World X -> World X)
    (w : World X) :
  (∀ a w', body a w' = (Ok tt, step a w')) ->
  for_each l body w = (Ok tt, foldl (fun w a => step a w) w l).
Proof.
  intros Hbody. revert w. induction l as [|a l IH]; intros w; simpl; [done|].
  rewrite run_bind, Hbody. apply IH.
Qed.

Lemma for_each_print {A} (l : list A) (msg : A -> Msg) (w : World X) :
  for_each l (fun a => print (msg a)) w =
    (Ok tt, {| ext := ext w; console := console w ++ (msg <$> l) |}).
Proof.
  revert w. induction l as [|a l IH]; intros w; simpl.
  - rewrite app_nil_r. by destruct w.
  - rewrite run_bind. unfold print at 1. rewrite IH. simpl.
    by rewrite <- (assoc_L (++)).
Qed.

Lemma foldl_world {A} (f : A -> X -> X) (g : A -> Msg) (l : list A) (w : World X) :
  foldl (fun w a => {| ext := f a (ext w); console := console w ++ [g a] |}) w l =
    {| ext := foldl (fun x a => f a x) (ext w) l; console := console w ++ (g <$> l) |}.
Proof.
  revert w. induction l as [|a l IH]; intros w; cbn [foldl fmap list_fmap].
  - rewrite app_nil_r. by destruct w.
  - rewrite IH. cbn [ext console]. by rewrite <- (assoc_L (++)).
Qed.

(** X6.  With a collection whose keyword [add] never raises, the batch
    loop returns, the store has taken the batches one after the other in
    order through the keyword call alone, and one line is printed for each
    batch. *)
Theorem insert_all_adds_every_batch (collection : Collection F X) (st : LoadState F)
    (w : World X) :
  (∀ b x, (add_kw collection b x).1 = Ok tt) ->
  let n := length (ids st) in
  let r := insert_all collection st w in
  r.1 = Ok tt ∧
  ext r.2 = foldl (fun x b => (add_kw collection b x).2) (ext w) (batches st) ∧
  console r.2 =
    console w ++ ((fun i => MsgInserted (i / BATCH + 1) i ((i + BATCH) `min` n - 1)) <$>
                    range 0 n BATCH).
Proof.
  intros Hadd n r. subst r. unfold insert_all, batches. fold n.
  rewrite (for_each_ok _ _
    (fun i w' => {| ext := (add_kw collection (batch_of st i ((i + BATCH) `min` n)) (ext w')).2;
                    console := console w' ++
                      [MsgInserted (i / BATCH + 1) i ((i + BATCH) `min` n - 1)] |})).
  2:{ intros i w'. unfold insert_batch, try_except. fold n.
      specialize (Hadd (batch_of st i ((i + BATCH) `min` n)) (ext w')).
      destruct (add_kw collection (batch_of st i ((i + BATCH) `min` n)) (ext w'))
        as [[[]|e] x1] eqn:E; [|done].
      run_step. done. }
  rewrite (foldl_world
    (fun i x => (add_kw collection (batch_of st i ((i + BATCH) `min` n)) x).2)
    (fun i => MsgInserted (i / BATCH + 1) i ((i + BATCH) `min` n - 1))).
  cbn [fst snd ext console]. split; [done|]. split; [|done].
  generalize (range 0 n BATCH) as l. intros l. generalize (ext w) as x.
  induction l as [|i l IH]; intros x; [done|]. cbn [fmap list_fmap foldl]. apply IH.
Qed.

End InsertAll.

Lemma insert_all_adds_every_batch_witness :
  let r := insert_all (Sample.collection None None None) Sample.state_abc Sample.world0 in
  r.1 = Ok tt ∧ ext r.2 = ["add(keywords)"] ∧ console r.2 = [MsgInserted 1 0 0].
Proof.
  destruct (insert_all_adds_every_batch (Sample.collection None None None)
              Sample.state_abc Sample.world0) as (H1 & H2 & H3).
  - intros b x. reflexivity.
  - split; [exact H1|]. split; [exact H2|exact H3].
Defined.

(** ** Fetching the collection *)

Section Fetching.

Context {F X : Type}.

(** X7.  [get_or_create_collection] never lets an error of the client
    through: it returns a collection or raises its own RuntimeError. *)
Theorem get_or_create_collection_raises_only_its_own (client : Client F X) (name : string)
    (w w' : World X) (e : Exn) :
  get_or_create_collection client name w = (Raise e, w') -> e = no_collection.
Proof.
  unfold get_or_create_collection, try_except, fetch, call, print, raise,
    mbind, M_bind, mret, M_ret.
  destruct (client_get_or_create_collection client) as [f|].
  { destruct (f name (ext w)) as [[c|e1] x1]; simpl; by intros [= <- _]. }
  destruct (client_create_collection client) as [f|].
  - destruct (f name (ext w)) as [[c|e1] x1]; simpl; [by intros [= <- _]|].
    destruct (client_get_collection client) as [g|]; simpl; [|by intros [= <- _]].
    destruct (g name x1) as [[c|e2] x2]; simpl; by intros [= <- _].
  - destruct (client_get_collection client) as [g|]; simpl; [|by intros [= <- _]].
    destruct (g name (ext w)) as [[c|e2] x2]; simpl; by intros [= <- _].
Qed.

(** X8.  When the client has [get_or_create_collection], nothing else is
    tried: its collection is returned, and when it raises the error is
    printed and the RuntimeError raised, even if [create_collection] or
    [get_collection] would have returned. *)
Theorem get_or_create_collection_first_method (client : Client F X) (name : string)
    (w : World X) f :
  client_get_or_create_collection client = Some f ->
  match f name (ext w) with
  | (Ok c, x) =>
      get_or_create_collection client name w =
        (Ok c, {| ext := x; console := console w ++ [MsgUsingGetOrCreate name] |})
  | (Raise e, x) =>
      get_or_create_collection client name w =
        (Raise no_collection, {| ext := x; console := console w ++ [MsgCollectionError e] |})
  end.
Proof.
  intros Hf. unfold get_or_create_collection, try_except. rewrite run_bind, Hf, run_bind.
  unfold call. destruct (f name (ext w)) as [[c|e] x]; by run_step.
Qed.

(** X9.  Without [get_or_create_collection], [create_collection] is
    called first.  When it raises, its error is dropped without a line of
    output: [get_collection] is called in the state it left when the client
    has it, and otherwise the RuntimeError is raised.  A client with none of
    the three methods gets the RuntimeError and the world is untouched. *)
Theorem get_or_create_collection_create_then_get (client : Client F X) (name : string)
    (w : World X) :
  client_get_or_create_collection client = None ->
  let r := get_or_create_collection client name w in
  match client_create_collection client, client_get_collection client with
  | Some f, get =>
      match f name (ext w) with
      | (Ok c, x) => r = (Ok c, {| ext := x; console := console w ++ [MsgUsingCreate name] |})
      | (Raise _, x) =>
          match get with
          | Some g =>
              match g name x with
              | (Ok c, x') =>
                  r = (Ok c, {| ext := x';
                                console := console w ++ [MsgUsingGetExisting name] |})
              | (Raise e', x') =>
                  r = (Raise no_collection,
                       {| ext := x'; console := console w ++ [MsgCollectionError e'] |})
              end
          | None => r = (Raise no_collection, {| ext := x; console := console w |})
          end
      end
  | None, Some g =>
      match g name (ext w) with
      | (Ok c, x) => r = (Ok c, {| ext := x; console := console w ++ [MsgUsingGet name] |})
      | (Raise e, x) =>
          r = (Raise no_collection,
               {| ext := x; console := console w ++ [MsgCollectionError e] |})
      end
  | None, None => r = (Raise no_collection, w)
  end.
Proof.
  intros Hn. cbv zeta.
  unfold get_or_create_collection, try_except, fetch, call, print, raise,
    mbind, M_bind, mret, M_ret.
  rewrite Hn.
  destruct (client_create_collection client) as [f|].
  - destruct (f name (ext w)) as [[c|e1] x1]; simpl; [done|].
    destruct (client_get_collection client) as [g|]; simpl; [|done].
    by destruct (g name x1) as [[c|e2] x2].
  - destruct (client_get_collection client) as [g|]; simpl; [|by destruct w].
    by destruct (g name (ext w)) as [[c|e2] x2].
Qed.

End Fetching.

Lemma get_or_create_collection_raises_only_its_own_witness :
  (get_or_create_collection (SampleMore.client (Some (Some ValueError)) (Some None) (Some None) None)
     "youtube_videos" Sample.world0).1 = Raise no_collection.
Proof.
  destruct (get_or_create_collection
              (SampleMore.client (Some (Some ValueError)) (Some None) (Some None) None)
              "youtube_videos" Sample.world0) as [[c|e] w'] eqn:E.
  - discriminate E.
  - simpl. f_equal. exact (get_or_create_collection_raises_only_its_own _ _ _ _ _ E).
Defined.

Lemma get_or_create_collection_first_method_witness :
  let r := get_or_create_collection
             (SampleMore.client (Some (Some ValueError)) (Some None) (Some None) None)
             "youtube_videos" Sample.world0 in
  r.1 = Raise no_collection ∧ ext r.2 = ["get_or_create_collection"].
Proof.
  intros r. subst r.
  pose proof (get_or_create_collection_first_method
                (SampleMore.client (Some (Some ValueError)) (Some None) (Some None) None)
                "youtube_videos" Sample.world0 _ eq_refl) as H.
  simpl in H. rewrite H. split; reflexivity.
Defined.

Lemma get_or_create_collection_create_then_get_witness :
  let r := get_or_create_collection
             (SampleMore.client None (Some (Some ValueError)) (Some None) None)
             "youtube_videos" Sample.world0 in
  (∃ c, r.1 = Ok c) ∧ ext r.2 = ["create_collection"; "get_collection"] ∧
  console r.2 = [MsgUsingGetExisting "youtube_videos"].
Proof.
  intros r. subst r.
  pose proof (get_or_create_collection_create_then_get
                (SampleMore.client None (Some (Some ValueError)) (Some None) None)
                "youtube_videos" Sample.world0 eq_refl) as H.
  simpl in H. rewrite H. split; [by eexists|]. split; reflexivity.
Defined.

(** ** The loader from end to end *)

Section LoaderRun.

Context {F X : Type}.
Variable py : PyOps F.
Variable env : Env F X.

Lemma match_nonempty {A B} (l : list A) (a b : B) :
  l ≠ [] -> match l with [] => a | _ :: _ => b end = b.
Proof. by destruct l. Qed.

Lemma lengths_match_build (rows : list (Row F)) : lengths_match (build py rows) = true.
Proof.
  destruct (build_inv py rows) as [_ _ Hd Hm He]. unfold lengths_match.
  rewrite Hd, Hm, He. by rewrite !Nat.eqb_refl.
Qed.

Lemma no_accepted_no_ids (rows : list (Row F)) :
  Forall (fun row => ¬ accepted py row) rows -> ids (build py rows) = [].
Proof.
  intros Hrows. apply length_zero_iff_nil. unfold build.
  destruct (iterrows_from_lists py 0 rows initial_state) as (_ & _ & _ & ->). simpl.
  induction Hrows as [|row rows Hrow _ IH]; [done|]. by rewrite filter_cons_False.
Qed.

Lemma some_accepted_some_ids (rows : list (Row F)) :
  Exists (accepted py) rows -> ids (build py rows) ≠ [].
Proof.
  intros Hrows Hnil. apply (f_equal length) in Hnil.
  destruct (iterrows_from_lists py 0 rows initial_state) as (_ & _ & _ & Hl).
  unfold build in Hnil. rewrite Hl in Hnil. simpl in Hnil. clear Hl.
  induction Hrows as [row rows Hrow|row rows _ IH].
  - by rewrite filter_cons_True in Hnil.
  - destruct (decide (accepted py row)).
    + by rewrite filter_cons_True in Hnil.
    + rewrite filter_cons_False in Hnil by done. by apply IH.
Qed.

(** The stages before the row loop, all of them returning. *)
Variables (w : World X) (df : DataFrame (Cell F)) (x1 : X).
Variables (client : Client F X) (w2 : World X) (collection : Collection F X) (w3 : World X).

Hypothesis Hfile : path_exists env CSV_WITH_EMB (ext w) = true.
Hypothesis Hread : read_csv env CSV_WITH_EMB (ext w) = (Ok df, x1).
Hypothesis Hclient :
  create_chroma_client env PERSIST_DIR
    {| ext := x1;
       console := console w ++ [MsgLoading CSV_WITH_EMB; MsgLoaded (length (rows df))] |}
  = (Ok client, w2).
Hypothesis Hcoll : get_or_create_collection client COLLECTION_NAME w2 = (Ok collection, w3).

Lemma main_after_setup :
  VectorDb.main py env w =
    (let st := build py (rows df) in
     match ids st with
     | [] => print MsgNoValidRows
     | _ :: _ =>
         print (MsgPreparing (length (ids st)) COLLECTION_NAME);;
         insert_all collection st;;
         try_except
           (match client_persist client with
            | Some persist => call persist;; print MsgPersistCalled
            | None => mret tt
            end)
           (fun e => print (MsgPersistError e));;
         print MsgRule;;
         print (MsgSuccess (length (ids st)));;
         print (MsgCollection COLLECTION_NAME);;
         print (MsgPersistDir PERSIST_DIR);;
         print MsgRule;;
         report_directory env
     end)
    {| ext := ext w3; console := console w3 ++ printed (build py (rows df)) |}.
Proof.
  unfold VectorDb.main. rewrite run_bind. unfold reads at 1. rewrite Hfile.
  cbn [negb]. rewrite run_bind. unfold print at 1. rewrite run_bind.
  erewrite run_call_ok by (cbn [ext]; exact Hread).
  rewrite run_bind. unfold print at 1. cbn [ext console].
  rewrite <- (assoc_L (++)). cbn [app]. rewrite run_bind, Hclient, run_bind, Hcoll.
  cbv zeta. rewrite run_bind. unfold print_all at 1.
  destruct (ids (build py (rows df))); [done|].
  by rewrite lengths_match_build.
Qed.

(** X10.  When no row of the frame is accepted (an empty frame
    included), the loader prints the skips and that there is nothing to
    insert, and returns in the state the collection fetch left: no [add],
    [upsert] or [persist] call is made and the directory is not listed. *)
Theorem main_without_accepted_rows :
  Forall (fun row => ¬ accepted py row) (rows df) ->
  VectorDb.main py env w =
    (Ok tt, {| ext := ext w3;
               console := console w3 ++ printed (build py (rows df)) ++ [MsgNoValidRows] |}) ∧
  length (printed (build py (rows df))) = length (rows df).
Proof.
  intros Hrows. pose proof (no_accepted_no_ids _ Hrows) as Hids. split.
  - rewrite main_after_setup. cbv zeta. rewrite Hids. unfold print. cbn [ext console].
    by rewrite <- (assoc_L (++)).
  - destruct (iterrows_from_printed py 0 (rows df) initial_state) as (ms & Hp & Hl & _).
    destruct (iterrows_from_lists py 0 (rows df) initial_state) as (_ & _ & _ & Hi).
    apply (f_equal length) in Hids. unfold build in *. rewrite Hi in Hids.
    rewrite Hp, length_app.
    change (length (printed (initial_state : LoadState F))) with 0.
    change (length (ids (initial_state : LoadState F))) with 0 in Hids.
    unfold Row in *. simpl in Hids. lia.
Qed.

(** X11.  An error that leaves the batch loop ends the loader with that
    error in the state the failing call left: [persist] is not called, no
    success line is printed and the directory is not listed. *)
Theorem main_stops_at_failed_insert (e : Exn) (w5 : World X) :
  Exists (accepted py) (rows df) ->
  let st := build py (rows df) in
  insert_all collection st
    {| ext := ext w3;
       console := console w3 ++ printed st ++ [MsgPreparing (length (ids st)) COLLECTION_NAME] |}
  = (Raise e, w5) ->
  VectorDb.main py env w = (Raise e, w5).
Proof.
  intros Hrows st Hins. pose proof (some_accepted_some_ids _ Hrows) as Hids.
  rewrite main_after_setup. cbv zeta. fold st.
  rewrite (match_nonempty _ _ _ Hids).
  rewrite run_bind. unfold print at 1. cbn [ext console].
  rewrite <- (assoc_L (++)). by rewrite run_bind, Hins.
Qed.

(** X12.  An error of [persist] does not fail the loader: it is printed
    and the run goes on to the success lines and the directory listing. *)
Theorem main_survives_persist_error (w5 : World X) persist (e : Exn) (x6 : X) :
  Exists (accepted py) (rows df) ->
  let st := build py (rows df) in
  insert_all collection st
    {| ext := ext w3;
       console := console w3 ++ printed st ++ [MsgPreparing (length (ids st)) COLLECTION_NAME] |}
  = (Ok tt, w5) ->
  client_persist client = Some persist ->
  persist (ext w5) = (Raise e, x6) ->
  VectorDb.main py env w =
    report_directory env
      {| ext := x6;
         console := console w5 ++
           [MsgPersistError e; MsgRule; MsgSuccess (length (ids st));
            MsgCollection COLLECTION_NAME; MsgPersistDir PERSIST_DIR; MsgRule] |}.
Proof.
  intros Hrows st Hins Hp He. pose proof (some_accepted_some_ids _ Hrows) as Hids.
  rewrite main_after_setup. cbv zeta. fold st.
  rewrite (match_nonempty _ _ _ Hids).
  rewrite run_bind. unfold print at 1. cbn [ext console].
  rewrite <- (assoc_L (++)). rewrite run_bind, Hins, run_bind.
  unfold try_except. rewrite Hp, run_bind. erewrite run_call_raise by exact He.
  unfold print at 1. cbn [ext console].
  repeat (rewrite run_bind; unfold print at 1; cbn [ext console]).
  by rewrite <- !(assoc_L (++)).
Qed.

End LoaderRun.

Lemma main_without_accepted_rows_witness :
  let r := VectorDb.main Sample.py SampleMore.env_skipped Sample.world0 in
  r.1 = Ok tt ∧
  ext r.2 = ["read_csv"; "import chromadb"; "mkdir"; "PersistentClient";
             "get_or_create_collection"].
Proof.
  intros r. subst r.
  pose (cl := SampleMore.client (Some None) None None (Some None)).
  pose (x3 := ["read_csv"; "import chromadb"; "mkdir"; "PersistentClient"]).
  pose (c1 := [MsgLoading CSV_WITH_EMB; MsgLoaded 1; MsgPersistentClientCreated PERSIST_DIR]).
  destruct (main_without_accepted_rows Sample.py SampleMore.env_skipped Sample.world0
              SampleMore.frame_skipped ["read_csv"] cl
              {| ext := x3; console := c1 |}
              (Sample.collection None None None)
              {| ext := x3 ++ ["get_or_create_collection"];
                 console := c1 ++ [MsgUsingGetOrCreate COLLECTION_NAME] |}
              eq_refl eq_refl eq_refl eq_refl) as [H _].
  - apply List.Forall_cons; [|apply List.Forall_nil].
    intros Hl. exact (is_Some_None (A:=list (PyVal Z)) Hl).
  - rewrite H. split; reflexivity.
Defined.

Lemma main_stops_at_failed_insert_witness :
  let r := VectorDb.main Sample.py SampleMore.env_add_fails Sample.world0 in
  r.1 = Raise {| exn_class := ValueError; exn_text := "add(keywords)" |} ∧
  ext r.2 = ["read_csv"; "import chromadb"; "mkdir"; "PersistentClient";
             "get_or_create_collection"; "add(keywords)"].
Proof.
  intros r. subst r.
  pose (co := Sample.collection (Some ValueError) None (Some None)).
  pose (x3 := ["read_csv"; "import chromadb"; "mkdir"; "PersistentClient"]).
  pose (c1 := [MsgLoading CSV_WITH_EMB; MsgLoaded 1; MsgPersistentClientCreated PERSIST_DIR]).
  pose (c2 := c1 ++ [MsgUsingGetOrCreate COLLECTION_NAME]).
  rewrite (main_stops_at_failed_insert Sample.py SampleMore.env_add_fails Sample.world0
             Sample.frame_embedded ["read_csv"] (Sample.client co)
             {| ext := x3; console := c1 |} co
             {| ext := x3 ++ ["get_or_create_collection"]; console := c2 |}
             eq_refl eq_refl eq_refl eq_refl
             {| exn_class := ValueError; exn_text := "add(keywords)" |}
             {| ext := x3 ++ ["get_or_create_collection"; "add(keywords)"];
                console := c2 ++ [MsgPreparing 1 COLLECTION_NAME] |}).
  - split; reflexivity.
  - apply Exists_cons_hd. exact (mk_is_Some _ [PFloat 1%Z; PFloat 2%Z] eq_refl).
  - reflexivity.
Defined.

Lemma main_survives_persist_error_witness :
  let r := VectorDb.main Sample.py SampleMore.env_persist_fails Sample.world0 in
  r.1 = Ok tt ∧
  ext r.2 = ["read_csv"; "import chromadb"; "mkdir"; "PersistentClient";
             "get_or_create_collection"; "add(keywords)"; "persist"; "glob"].
Proof.
  intros r. subst r.
  pose (cl := SampleMore.client (Some None) None None (Some (Some OtherException))).
  pose (x3 := ["read_csv"; "import chromadb"; "mkdir"; "PersistentClient"]).
  pose (x5 := x3 ++ ["get_or_create_collection"; "add(keywords)"]).
  pose (c1 := [MsgLoading CSV_WITH_EMB; MsgLoaded 1; MsgPersistentClientCreated PERSIST_DIR]).
  pose (c2 := c1 ++ [MsgUsingGetOrCreate COLLECTION_NAME]).
  rewrite (main_survives_persist_error Sample.py SampleMore.env_persist_fails Sample.world0
             Sample.frame_embedded ["read_csv"] cl
             {| ext := x3; console := c1 |} (Sample.collection None None None)
             {| ext := x3 ++ ["get_or_create_collection"]; console := c2 |}
             eq_refl eq_refl eq_refl eq_refl
             {| ext := x5; console := c2 ++ [MsgPreparing 1 COLLECTION_NAME; MsgInserted 1 0 0] |}
             (Sample.outcome "persist" (Some OtherException))
             {| exn_class := OtherException; exn_text := "persist" |}
             (x5 ++ ["persist"])).
  - split; reflexivity.
  - apply Exists_cons_hd. exact (mk_is_Some _ [PFloat 1%Z; PFloat 2%Z] eq_refl).
  - reflexivity.
  - reflexivity.
  - reflexivity.
Defined.

(** ** What the bootstrapper prints *)

Section BootstrapLog.

Context {F X : Type}.
Variable env : Env F X.

(** X13.  When all four strategies raise, the output has one line for the
    persistent client (a fixed line when its error is an AttributeError,
    else a line with the error), one for the settings client and one for
    the path client; the error of the network client is dropped without a
    line, and the errors themselves are replaced by the RuntimeError. *)
Theorem create_chroma_client_log_when_exhausted (dir : string) (w : World X)
    x1 x2 e1 x3 e2 x4 e3 x5 e4 x6 :
  import_chromadb env (ext w) = (Ok tt, x1) ->
  mkdir_exist_ok env dir x1 = (Ok tt, x2) ->
  PersistentClient env dir x2 = (Raise e1, x3) ->
  HttpClient env x3 = (Raise e2, x4) ->
  Client_of_settings env "duckdb+parquet" dir x4 = (Raise e3, x5) ->
  Client_of_path env dir x5 = (Raise e4, x6) ->
  create_chroma_client env dir w =
    (Raise no_client,
     {| ext := x6;
        console := console w ++
          [ if is_class AttributeError e1 then MsgPersistentClientUnavailable
            else MsgPersistentClientFailed e1;
            MsgSettingsFailed e3; MsgPathClientFailed e4 ] |}).
Proof.
  intros Hi Hm H1 H2 H3 H4.
  unfold create_chroma_client, attempt, try_except, call, print, raise,
    mbind, M_bind, mret, M_ret.
  rewrite Hi. cbn [ext console]. rewrite Hm. cbn [ext console]. rewrite H1.
  cbn [ext console].
  destruct (is_class AttributeError e1); cbn [ext console]; rewrite H2; cbn [ext console];
    rewrite H3; cbn [ext console]; rewrite H4; cbn [ext console];
    by rewrite <- !(assoc_L (++)).
Qed.

(** X14.  The closing report never raises on its own account and touches
    the outside only through the directory listing.  Without the directory
    it prints the two warnings and lists nothing; with it, it prints the
    number of entries and at most five names, then how many more there are;
    an empty directory gets the first line only. *)
Theorem report_directory_lists_at_most_five (w : World X) :
  (path_exists env PERSIST_DIR (ext w) = false ->
   report_directory env w =
     (Ok tt, {| ext := ext w;
                console := console w ++ [MsgDirNotCreated PERSIST_DIR; MsgMaybeInMemory] |})) ∧
  (∀ e x, path_exists env PERSIST_DIR (ext w) = true ->
     glob_names env PERSIST_DIR (ext w) = (Raise e, x) ->
     report_directory env w =
       (Raise e, {| ext := x; console := console w ++ [MsgDirExists PERSIST_DIR] |})) ∧
  (∀ files x, path_exists env PERSIST_DIR (ext w) = true ->
     glob_names env PERSIST_DIR (ext w) = (Ok files, x) ->
     report_directory env w =
       (Ok tt, {| ext := x;
                  console := console w ++ MsgDirExists PERSIST_DIR ::
                    match files with
                    | [] => []
                    | _ :: _ =>
                        MsgContains (length files) :: (MsgFileName <$> take 5 files) ++
                        (if (5 <? length files)%nat then [MsgMore (length files - 5)]
                         else [])
                    end |})).
Proof.
  split; [|split].
  - intros H. unfold report_directory. rewrite run_bind. unfold reads. rewrite H.
    rewrite run_bind. unfold print. cbn [ext console]. by rewrite <- (assoc_L (++)).
  - intros e x H Hg. unfold report_directory. rewrite run_bind. unfold reads. rewrite H.
    rewrite run_bind. unfold print at 1. rewrite run_bind.
    by erewrite run_call_raise by exact Hg.
  - intros files x H Hg.
    unfold report_directory. rewrite run_bind. unfold reads. rewrite H.
    rewrite run_bind. unfold print at 1. rewrite run_bind.
    erewrite run_call_ok by exact Hg. cbn [ext console].
    destruct files as [|f files]; [done|].
    rewrite run_bind. unfold print at 1. rewrite run_bind, for_each_print.
    cbn [ext console].
    destruct (5 <? length (f :: files))%nat; unfold print, mret, M_ret; cbn [ext console];
      rewrite <- ?(assoc_L (++)); try rewrite app_nil_r; done.
Qed.

End BootstrapLog.

Lemma create_chroma_client_log_when_exhausted_witness :
  let env := Sample.env true Sample.frame_embedded None (Some AttributeError)
               (Some OtherException) (Some OtherException) (Some OtherException)
               (Sample.collection None None None) in
  console (create_chroma_client env "chroma_db" Sample.world0).2 =
    [MsgPersistentClientUnavailable;
     MsgSettingsFailed {| exn_class := OtherException; exn_text := "Client(Settings)" |};
     MsgPathClientFailed {| exn_class := OtherException; exn_text := "Client(path)" |}].
Proof.
  intros env.
  pose (x2 := ["import chromadb"; "mkdir"]).
  rewrite (create_chroma_client_log_when_exhausted env "chroma_db" Sample.world0
             ["import chromadb"] x2
             {| exn_class := AttributeError; exn_text := "PersistentClient" |}
             (x2 ++ ["PersistentClient"])
             {| exn_class := OtherException; exn_text := "HttpClient" |}
             (x2 ++ ["PersistentClient"; "HttpClient"])
             {| exn_class := OtherException; exn_text := "Client(Settings)" |}
             (x2 ++ ["PersistentClient"; "HttpClient"; "Client(Settings)"])
             {| exn_class := OtherException; exn_text := "Client(path)" |}
             (x2 ++ ["PersistentClient"; "HttpClient"; "Client(Settings)"; "Client(path)"])
             eq_refl eq_refl eq_refl eq_refl eq_refl eq_refl).
  reflexivity.
Defined.

Lemma report_directory_lists_at_most_five_witness :
  let env := SampleMore.env true Sample.frame_embedded
               (SampleMore.client (Some None) None None None)
               ["a"; "b"; "c"; "d"; "e"; "f"; "g"] [] None in
  console (report_directory env Sample.world0).2 =
    [MsgDirExists PERSIST_DIR; MsgContains 7; MsgFileName "a"; MsgFileName "b";
     MsgFileName "c"; MsgFileName "d"; MsgFileName "e"; MsgMore 2].
Proof.
  intros env.
  destruct (report_directory_lists_at_most_five env Sample.world0) as (_ & _ & H).
  rewrite (H ["a"; "b"; "c"; "d"; "e"; "f"; "g"] ["glob"] eq_refl eq_refl).
  reflexivity.
Defined.

(** ** The embedder from end to end *)

Section EmbedderRun.

Context {F X : Type}.
Variable env : Env F X.

(** X15.  The texts handed to the encoder are the cells of the
    [combined_text] column, one for each row and in the order of the frame,
    with an empty text in place of every missing value; no text is NaN.
    Cells that are not text are handed over as they are. *)
Theorem texts_have_no_missing_value (df : DataFrame (Cell F)) :
  let texts := Embed.fillna (CStr "") (Embed.column "combined_text" df) in
  length texts = length (rows df) ∧
  (CNaN ∉ texts) ∧
  (∀ i row, rows df !! i = Some row ->
     texts !! i = Some match row !! "combined_text" with
                       | Some CNaN | None => CStr ""
                       | Some c => c
                       end).
Proof.
  cbv zeta. unfold Embed.fillna, Embed.column. split; [by rewrite !length_fmap|]. split.
  - intros (c & Hc & _)%list_elem_of_fmap. by destruct c.
  - intros i row Hi. rewrite !list_lookup_fmap, Hi. simpl.
    by destruct (row !! "combined_text") as [[]|].
Qed.

Lemma set_column_length_mismatch (k : string) (values : list (list (PyVal F)))
    (df : DataFrame (Cell F)) :
  rows df ≠ [] -> length values ≠ length (rows df) -> Embed.set_column k values df = None.
Proof.
  intros Hrows Hne. unfold Embed.set_column. rewrite (proj2 (Nat.eqb_neq _ _) Hne).
  by destruct (rows df).
Qed.

(** The stages of a run up to the encoder, all of them returning. *)
Variables (w : World X) (df : DataFrame (Cell F)) (x1 : X).

Hypothesis Hfile : path_exists env Embed.INPUT_CSV (ext w) = true.
Hypothesis Hread : read_csv env Embed.INPUT_CSV (ext w) = (Ok df, x1).
Hypothesis Hcol : "combined_text" ∈ columns df.

Lemma embed_main_after_read :
  Embed.main env w =
    (embeddings ← Embed.embed_texts env
                   (Embed.fillna (CStr "") (Embed.column "combined_text" df))
                   Embed.EMBED_MODEL_NAME 64;
     match Embed.set_column "embedding" embeddings df with
     | None => raise (Embed.length_mismatch (length embeddings) (length (rows df)))
     | Some df' => call (to_csv env df' Embed.EMBED_CSV);; print (MsgSaved Embed.EMBED_CSV)
     end)
    {| ext := x1;
       console := console w ++ [MsgEmbedding (length (rows df)) Embed.EMBED_MODEL_NAME] |}.
Proof.
  unfold Embed.main. rewrite run_bind. unfold reads. rewrite Hfile. cbn [negb].
  rewrite run_bind. erewrite run_call_ok by exact Hread.
  rewrite bool_decide_eq_true_2 by done. cbn [negb]. cbv zeta.
  rewrite run_bind. unfold print at 1. cbn [ext console].
  unfold Embed.fillna, Embed.column. by rewrite !length_fmap.
Qed.

(** X17.  When the encoder returns one vector for each row and the write
    returns, the embedder returns: the frame written is the frame read with
    the embedding column set, under the fixed output name, and two lines
    are printed. *)
Theorem embed_main_writes_the_embedded_frame model x2 vectors x3 df' x4 :
  SentenceTransformer env Embed.EMBED_MODEL_NAME x1 = (Ok model, x2) ->
  encode model (Embed.fillna (CStr "") (Embed.column "combined_text" df)) 64 x2
    = (Ok vectors, x3) ->
  Embed.set_column "embedding" vectors df = Some df' ->
  to_csv env df' Embed.EMBED_CSV x3 = (Ok tt, x4) ->
  Embed.main env w =
    (Ok tt, {| ext := x4;
               console := console w ++
                 [MsgEmbedding (length (rows df)) Embed.EMBED_MODEL_NAME;
                  MsgSaved Embed.EMBED_CSV] |}).
Proof.
  intros Hm He Hs Hw. rewrite embed_main_after_read. unfold Embed.embed_texts.
  rewrite !run_bind. erewrite run_call_ok by exact Hm.
  rewrite run_bind. erewrite run_call_ok by exact He.
  cbn [mret M_ret]. rewrite Hs, run_bind. erewrite run_call_ok by exact Hw.
  unfold print. cbn [ext console]. by rewrite <- (assoc_L (++)).
Qed.

(** X18.  Nothing is written unless the encoder has returned its
    vectors: an error building the encoder or encoding leaves the embedder
    as it is, and on a frame with rows a wrong number of vectors raises the
    ValueError of the column assignment in the state the encoder left. *)
Theorem embed_main_writes_nothing_on_failure :
  (∀ e x2, SentenceTransformer env Embed.EMBED_MODEL_NAME x1 = (Raise e, x2) ->
     Embed.main env w =
       (Raise e, {| ext := x2;
                    console := console w ++
                      [MsgEmbedding (length (rows df)) Embed.EMBED_MODEL_NAME] |})) ∧
  (∀ model x2 e x3,
     SentenceTransformer env Embed.EMBED_MODEL_NAME x1 = (Ok model, x2) ->
     encode model (Embed.fillna (CStr "") (Embed.column "combined_text" df)) 64 x2
       = (Raise e, x3) ->
     Embed.main env w =
       (Raise e, {| ext := x3;
                    console := console w ++
                      [MsgEmbedding (length (rows df)) Embed.EMBED_MODEL_NAME] |})) ∧
  (∀ model x2 vectors x3,
     SentenceTransformer env Embed.EMBED_MODEL_NAME x1 = (Ok model, x2) ->
     encode model (Embed.fillna (CStr "") (Embed.column "combined_text" df)) 64 x2
       = (Ok vectors, x3) ->
     rows df ≠ [] ->
     length vectors ≠ length (rows df) ->
     Embed.main env w =
       (Raise (Embed.length_mismatch (length vectors) (length (rows df))),
        {| ext := x3;
           console := console w ++
             [MsgEmbedding (length (rows df)) Embed.EMBED_MODEL_NAME] |})).
Proof.
  rewrite embed_main_after_read. unfold Embed.embed_texts. split; [|split].
  - intros e x2 Hm. rewrite !run_bind. by erewrite run_call_raise by exact Hm.
  - intros model x2 e x3 Hm He. rewrite !run_bind. erewrite run_call_ok by exact Hm.
    rewrite run_bind. by erewrite run_call_raise by exact He.
  - intros model x2 vectors x3 Hm He Hrows Hne. rewrite !run_bind.
    erewrite run_call_ok by exact Hm. rewrite run_bind. erewrite run_call_ok by exact He.
    cbn [mret M_ret].
    by rewrite set_column_length_mismatch.
Qed.

End EmbedderRun.

Lemma embed_main_writes_the_embedded_frame_witness :
  let env := SampleMore.env true SampleMore.frame_texts
               (SampleMore.client (Some None) None None None) []
               [[PFloat 1%Z]; [PFloat 2%Z]] None in
  let r := Embed.main env Sample.world0 in
  r.1 = Ok tt ∧ ext r.2 = ["read_csv"; "SentenceTransformer"; "encode"; "to_csv"].
Proof.
  intros env r. subst r.
  pose (vectors := [[PFloat 1%Z]; [PFloat 2%Z]]).
  pose (df' := default {| columns := []; rows := [] |}
                 (Embed.set_column "embedding" vectors SampleMore.frame_texts)).
  rewrite (embed_main_writes_the_embedded_frame env Sample.world0 SampleMore.frame_texts
             ["read_csv"] eq_refl eq_refl (list_elem_of_here _ _)
             {| encode := fun _ _ => Sample.construct "encode" None vectors |}
             ["read_csv"; "SentenceTransformer"] vectors
             ["read_csv"; "SentenceTransformer"; "encode"] df'
             ["read_csv"; "SentenceTransformer"; "encode"; "to_csv"]
             eq_refl eq_refl eq_refl eq_refl).
  split; reflexivity.
Defined.

Lemma embed_main_writes_nothing_on_failure_witness :
  let env := SampleMore.env true SampleMore.frame_texts
               (SampleMore.client (Some None) None None None) []
               [[PFloat 1%Z]] None in
  let r := Embed.main env Sample.world0 in
  r.1 = Raise {| exn_class := ValueError;
                 exn_text := "Length of values (1) does not match length of index (2)" |} ∧
  ext r.2 = ["read_csv"; "SentenceTransformer"; "encode"].
Proof.
  intros env r. subst r.
  destruct (embed_main_writes_nothing_on_failure env Sample.world0 SampleMore.frame_texts
              ["read_csv"] eq_refl eq_refl (list_elem_of_here _ _)) as (_ & _ & H).
  rewrite (H {| encode := fun _ _ => Sample.construct "encode" None [[PFloat 1%Z]] |}
             ["read_csv"; "SentenceTransformer"] [[PFloat 1%Z]]
             ["read_csv"; "SentenceTransformer"; "encode"] eq_refl eq_refl).
  - split; reflexivity.
  - discriminate.
  - simpl. lia.
Defined.

(** ** What is parsed as an embedding *)

Section Parsing.

Context {F : Type}.
Variable py : PyOps F.

(** X19.  Only a non-empty text is ever parsed: numbers, booleans and
    missing values give no list.  The literal parser comes first, and the
    JSON parser is consulted only when the literal parser raised or gave a
    value that is not a sequence. *)
Theorem ensure_embedding_list_only_parses_text (x : option (Cell F)) (l : list (PyVal F)) :
  ensure_embedding_list py x = Some l ->
  ∃ s, x = Some (CStr s) ∧ s ≠ "" ∧
       (parse_list (literal_eval py) s = Some l ∨
        (parse_list (literal_eval py) s = None ∧ parse_list (json_loads py) s = Some l)).
Proof.
  unfold ensure_embedding_list. destruct x as [[| | | |s]|]; try done.
  destruct s as [|c s]; [done|]. simpl. intros H. eexists. split; [done|]. split; [done|].
  destruct (parse_list (literal_eval py) (String c s)) as [l1|]; [left; congruence|].
  right. split; [done|]. by destruct (parse_list (json_loads py) (String c s)).
Qed.

(** ** Metadata *)

(** X20.  The title stored with a document is the text of the [title]
    cell whenever that cell is truthy; a missing (NaN) title is truthy, so
    it is stored as the text nan and [title_clean] is not consulted.
    [title_clean] is used only when [title] is absent or falsy, and the
    empty text only when neither gives a truthy value. *)
Theorem metadata_title_prefers_title_even_when_nan (row : Row F) :
  let a := get row "title" in
  let b := get row "title_clean" in
  (truthy py a = true -> title (metadata_of py row) = py_str py a) ∧
  (a = Some CNaN -> title (metadata_of py row) = "nan") ∧
  (truthy py a = false -> truthy py b = true -> title (metadata_of py row) = py_str py b) ∧
  (truthy py a = false -> b = Some CNaN -> title (metadata_of py row) = "nan") ∧
  (truthy py a = false -> truthy py b = false -> title (metadata_of py row) = "").
Proof.
  cbv zeta. unfold metadata_of, py_or. cbn [title].
  assert (truthy py (Some CNaN) = true) as Hnan by done.
  split; [intros H; by rewrite !H|].
  split; [intros H; by rewrite H, !Hnan|].
  split; [intros H H'; by rewrite H, !H'|].
  split; [intros H H'; by rewrite H, H', !Hnan|].
  intros H H'. by rewrite H, H'.
Qed.

End Parsing.

Lemma ensure_embedding_list_only_parses_text_witness :
  ∃ s, get Sample.row_abc "embedding" = Some (CStr s) ∧ s ≠ "".
Proof.
  destruct (ensure_embedding_list_only_parses_text Sample.py
              (get Sample.row_abc "embedding") [PFloat 1%Z; PFloat 2%Z] eq_refl)
    as (s & Hs & Hne & _).
  exists s. split; [exact Hs|exact Hne].
Defined.

Lemma metadata_title_prefers_title_even_when_nan_witness :
  title (metadata_of Sample.py {[ "title" := CNaN; "title_clean" := CStr "clean" ]}) = "nan".
Proof.
  destruct (metadata_title_prefers_title_even_when_nan Sample.py
              {[ "title" := CNaN; "title_clean" := CStr "clean" ]}) as (_ & H & _).
  apply H. reflexivity.
Defined.

(** ** The identifier cut out of a URL *)

Lemma split_go_nonempty sep skip cur s : PyStr.split_go sep skip cur s ≠ [].
Proof.
  revert skip cur. induction s as [|c s IH]; intros skip cur; cbn [PyStr.split_go]; [done|].
  destruct skip; [|apply IH]. destruct (String.prefix sep (String c s)); [done|apply IH].
Qed.

Lemma split_go_contains sep cur s :
  sep ≠ "" -> PyStr.contains sep s = true ->
  is_Some (PyStr.split_go sep 0 cur s !! 1).
Proof.
  intros Hsep. revert cur. induction s as [|c s IH]; intros cur.
  - simpl. destruct sep; [done|]. by rewrite orb_false_r.
  - cbn [PyStr.contains PyStr.split_go]. destruct (String.prefix sep (String c s)) eqn:E.
    + intros _. cbn [lookup list_lookup].
      destruct (PyStr.split_go sep (String.length sep - 1) "" s) eqn:E2; [|by eexists].
      by apply split_go_nonempty in E2.
    + cbn [orb]. apply IH.
Qed.

Lemma prefix_amp c s : String.prefix "&" (String c s) = bool_decide (c = "&"%char).
Proof.
  cbn [String.prefix]. destruct (ascii_dec "&" c) as [<-|Hne]; [by rewrite prefix_nil|].
  by rewrite bool_decide_eq_false_2.
Qed.

Lemma contains_amp_app a b :
  PyStr.contains "&" (a +:+ b) = PyStr.contains "&" a || PyStr.contains "&" b.
Proof.
  induction a as [|c a IH].
  - change ("" +:+ b) with b. cbn [PyStr.contains String.prefix orb]. by destruct b.
  - rewrite app_cons. cbn [PyStr.contains]. rewrite !prefix_amp, IH.
    by destruct (bool_decide _), (PyStr.contains "&" a).
Qed.

Lemma split_go_amp_head cur s h :
  head (PyStr.split_go "&" 0 cur s) = Some h ->
  PyStr.contains "&" (String.rev cur) = false -> PyStr.contains "&" h = false.
Proof.
  revert cur. induction s as [|c s IH]; intros cur.
  - cbn [PyStr.split_go head]. by intros [= <-].
  - cbn [PyStr.split_go]. rewrite prefix_amp. case_bool_decide as Hc.
    + cbn [head]. by intros [= <-].
    + intros Hh Hcur. apply (IH _ Hh). unfold String.rev. cbn [String.rev_app].
      rewrite rev_app_spec, contains_amp_app, Hcur. cbn [PyStr.contains orb].
      rewrite prefix_amp. by rewrite bool_decide_eq_false_2.
Qed.

(** X21.  Whenever the text of the URL contains [v=], cutting the
    identifier out of it succeeds (the handler for a failed cut is never
    needed), and what is cut out contains no [&]. *)
Theorem vid_from_url_succeeds (url : string) :
  PyStr.contains "v=" url = true ->
  ∃ v, vid_from_url url = Some v ∧ PyStr.contains "&" v = false.
Proof.
  intros Hc. unfold vid_from_url, PyStr.split.
  destruct (split_go_contains "v=" "" url) as [p Hp]; [done|done|]. rewrite Hp. simpl.
  destruct (PyStr.split_go "&" 0 "" p) as [|v rest] eqn:E.
  { by apply split_go_nonempty in E. }
  exists v. split; [done|]. apply (split_go_amp_head "" p); [by rewrite E|done].
Qed.

Lemma vid_from_url_succeeds_witness :
  ∃ v, vid_from_url "https://y.t/?rev=2&v=abc" = Some v ∧ PyStr.contains "&" v = false.
Proof. apply vid_from_url_succeeds. reflexivity. Defined.

(** ** Numbers in the metadata *)

Lemma forall_chars_impl (p q : ascii -> bool) (s : string) :
  (∀ c, p c = true -> q c = true) ->
  PyStr.forall_chars p s = true -> PyStr.forall_chars q s = true.
Proof.
  intros Hpq. induction s as [|c s IH]; simpl; [done|].
  intros [Hc Hs]%andb_prop. by rewrite (Hpq c Hc), IH.
Qed.

Lemma forall_chars_rev_app (p : ascii -> bool) (a b : string) :
  PyStr.forall_chars p (String.rev_app a b) = PyStr.forall_chars p a && PyStr.forall_chars p b.
Proof.
  revert b. induction a as [|c a IH]; intros b; simpl; [done|].
  rewrite IH. simpl. by destruct (p c), (PyStr.forall_chars p a).
Qed.

Lemma decimal_not_space (c : ascii) :
  PyStr.isdecimal_char c = true -> negb (PyStr.isspace c) = true.
Proof. by destruct c as [[] [] [] [] [] [] [] []]. Qed.

Lemma decimal_is_digit (c : ascii) :
  PyStr.isdecimal_char c = true -> PyStr.isdigit_char c = true.
Proof. unfold PyStr.isdigit_char. by intros ->. Qed.

Lemma lstrip_id (s : string) :
  PyStr.forall_chars (fun c => negb (PyStr.isspace c)) s = true -> PyStr.lstrip s = s.
Proof. destruct s as [|c s]; simpl; [done|]. by destruct (PyStr.isspace c). Qed.

(** [strip] leaves a text without white space as it is. *)
Lemma strip_id (s : string) :
  PyStr.forall_chars (fun c => negb (PyStr.isspace c)) s = true -> PyStr.strip s = s.
Proof.
  intros Hs. unfold PyStr.strip, PyStr.rstrip. rewrite (lstrip_id s Hs).
  rewrite lstrip_id.
  - apply rev_rev_app.
  - unfold String.rev. by rewrite forall_chars_rev_app, Hs.
Qed.

Lemma pretty_N_char_decimal (x : N) : PyStr.isdecimal_char (pretty_N_char x) = true.
Proof. unfold pretty_N_char. by repeat case_match. Qed.

Lemma pretty_N_go_decimal (x : N) (s : string) :
  PyStr.forall_chars PyStr.isdecimal_char s = true ->
  PyStr.forall_chars PyStr.isdecimal_char (pretty_N_go x s) = true ∧
  ((0 < x)%N -> PyStr.nonempty (pretty_N_go x s) = true) ∧
  (PyStr.nonempty s = true -> PyStr.nonempty (pretty_N_go x s) = true).
Proof.
  revert s. induction (N.lt_wf_0 x) as [x _ IH]; intros s Hs.
  destruct (decide (x = 0)%N) as [->|Hx].
  - rewrite pretty_N_go_0. split; [done|]. split; [lia|done].
  - rewrite pretty_N_go_step by lia.
    destruct (IH (x `div` 10)%N) with (s := String (pretty_N_char (x `mod` 10)) s)
      as (H1 & _ & H3).
    + apply N.div_lt; lia.
    + simpl. by rewrite pretty_N_char_decimal, Hs.
    + split; [done|]. split; intros _; by apply H3.
Qed.

Lemma pretty_pos_isdigit (p : positive) : PyStr.isdigit (PyStr.strip (pretty (Zpos p))) = true.
Proof.
  change (pretty (Zpos p)) with (pretty_N_go (Npos p) "").
  destruct (pretty_N_go_decimal (Npos p) "" eq_refl) as (Hd & Hn & _).
  rewrite strip_id by (eapply forall_chars_impl; [apply decimal_not_space|done]).
  unfold PyStr.isdigit. rewrite Hn by lia.
  eapply forall_chars_impl; [apply decimal_is_digit|done].
Qed.

Lemma rev_app_app (a b c : string) :
  String.rev_app (a +:+ b) c = String.rev_app b (String.rev_app a c).
Proof.
  revert c. induction a as [|d a IH]; intros c; [done|]. rewrite app_cons. simpl. apply IH.
Qed.

Lemma lstrip_snoc (a : string) (c : ascii) :
  PyStr.isspace c = false -> ∃ a', PyStr.lstrip (a +:+ String c "") = a' +:+ String c "".
Proof.
  intros Hc. induction a as [|d a IH].
  - exists "". change ("" +:+ String c "") with (String c ""). simpl. by rewrite Hc.
  - rewrite app_cons. simpl. destruct (PyStr.isspace d); [done|].
    exists (String d a). by rewrite app_cons.
Qed.

(** A text that starts with a minus sign is not a run of digits, also
    after [strip]. *)
Lemma minus_not_isdigit (t : string) : PyStr.isdigit (PyStr.strip (String "-" t)) = false.
Proof.
  unfold PyStr.strip, PyStr.rstrip. change (PyStr.lstrip (String "-" t)) with (String "-" t).
  unfold String.rev at 2. simpl. rewrite rev_app_spec.
  destruct (lstrip_snoc (String.rev t) "-" eq_refl) as [a' ->].
  unfold String.rev. rewrite rev_app_app. simpl.
  unfold PyStr.isdigit. simpl. done.
Qed.

Section Numbers.

Context {F : Type}.
Variable py : PyOps F.

(** X23.  An integer view count is stored when it is not negative and
    dropped (None) when it is negative; a missing column, NaN and booleans
    give None.  The duration keeps every integer, negative ones too, counts
    a boolean as 0 or 1, and is None for a missing column and for NaN. *)
Theorem metadata_numbers_of_scalar_cells (row : Row F) :
  let viewc := row !! "view_count" in
  let dur := row !! "duration_seconds" in
  (viewc = None ∨ viewc = Some CNaN ∨ (∃ b, viewc = Some (CBool b)) ->
   view_count (metadata_of py row) = None) ∧
  (∀ z, viewc = Some (CInt z) ->
     view_count (metadata_of py row) = if (0 <=? z)%Z then Some z else None) ∧
  (dur = None ∨ dur = Some CNaN -> duration_seconds (metadata_of py row) = None) ∧
  (∀ z, dur = Some (CInt z) -> duration_seconds (metadata_of py row) = Some z) ∧
  (∀ b, dur = Some (CBool b) ->
     duration_seconds (metadata_of py row) = Some (if b then 1 else 0)%Z).
Proof.
  cbv zeta. unfold metadata_of, view_count_of, duration_of, has_key, get. simpl.
  split; [|split; [|split; [|split]]].
  - intros [-> | [-> | [[] ->]]]; done.
  - intros z ->. simpl. destruct z as [|p|p]; simpl.
    + done.
    + by rewrite pretty_pos_isdigit.
    + change (pretty (Z.neg p)) with (String "-" (pretty p)).
      by rewrite minus_not_isdigit.
  - intros [-> | ->]; [|by rewrite bool_decide_eq_true_2].
    by rewrite bool_decide_eq_false_2 by (by intros [? ?]).
  - intros z ->. by rewrite bool_decide_eq_true_2.
  - intros b ->. by rewrite bool_decide_eq_true_2.
Qed.

End Numbers.

Lemma metadata_numbers_of_scalar_cells_witness :
  view_count (metadata_of Sample.py {[ "view_count" := CInt (-5) ]}) = None ∧
  view_count (metadata_of Sample.py {[ "view_count" := CInt 12 ]}) = Some 12%Z ∧
  duration_seconds (metadata_of Sample.py {[ "duration_seconds" := CInt (-5) ]}) = Some (-5)%Z.
Proof.
  split; [|split].
  - destruct (metadata_numbers_of_scalar_cells Sample.py {[ "view_count" := CInt (-5) ]})
      as (_ & H & _). exact (H (-5)%Z eq_refl).
  - destruct (metadata_numbers_of_scalar_cells Sample.py {[ "view_count" := CInt 12 ]})
      as (_ & H & _). exact (H 12%Z eq_refl).
  - destruct (metadata_numbers_of_scalar_cells Sample.py {[ "duration_seconds" := CInt (-5) ]})
      as (_ & _ & _ & H & _). exact (H (-5)%Z eq_refl).
Defined.

(** ** Trimmed identifiers *)

Lemma lstrip_head (s : string) :
  PyStr.lstrip s = "" ∨ ∃ c t, PyStr.lstrip s = String c t ∧ PyStr.isspace c = false.
Proof.
  induction s as [|c s IH]; simpl; [by left|].
  destruct (PyStr.isspace c) eqn:E; [done|]. right. by exists c, s.
Qed.

Lemma rev_cons (c : ascii) (s : string) : String.rev (String c s) = String.rev s +:+ String c "".
Proof. unfold String.rev. simpl. apply rev_app_spec. Qed.

Lemma rev_snoc (s : string) (c : ascii) : String.rev (s +:+ String c "") = String c (String.rev s).
Proof. unfold String.rev. by rewrite rev_app_app. Qed.

(** What [strip] returns is empty or has no white space at either end. *)
Lemma strip_ends (s : string) :
  PyStr.strip s = "" ∨
  ∃ c t u d, PyStr.strip s = String c t ∧ PyStr.strip s = u +:+ String d "" ∧
             PyStr.isspace c = false ∧ PyStr.isspace d = false.
Proof.
  unfold PyStr.strip, PyStr.rstrip.
  destruct (lstrip_head s) as [->|(c & t & -> & Hc)]; [by left|]. right.
  rewrite rev_cons. destruct (lstrip_snoc (String.rev t) c Hc) as [a' Ha'].
  destruct (lstrip_head (String.rev t +:+ String c "")) as [E|(d & u & E & Hd)].
  { rewrite E in Ha'. by destruct a'. }
  exists c, (String.rev a'), (String.rev u), d.
  split; [by rewrite Ha', rev_snoc|]. split; [by rewrite E, rev_cons|done].
Qed.

Section Trimmed.

Context {F : Type}.
Variable py : PyOps F.

(** X24.  An identifier taken from the [video_id] or the [id] field
    carries no white space at either end: its first and its last character
    are not white space. *)
Theorem field_ids_are_trimmed (row : Row F) (idx : nat) :
  usable_id py (get row "video_id") = true ∨ usable_id py (get row "id") = true ->
  ∃ c t u d, get_valid_video_id py row idx = String c t ∧
             get_valid_video_id py row idx = u +:+ String d "" ∧
             PyStr.isspace c = false ∧ PyStr.isspace d = false.
Proof.
  intros H. unfold get_valid_video_id.
  assert (∀ x, usable_id py x = true ->
            ∃ c t u d, PyStr.strip (py_str py x) = String c t ∧
                       PyStr.strip (py_str py x) = u +:+ String d "" ∧
                       PyStr.isspace c = false ∧ PyStr.isspace d = false) as Hfield.
  { intros x Hx. destruct (strip_ends (py_str py x)) as [E|?]; [|done].
    unfold usable_id in Hx. rewrite E in Hx. simpl in Hx.
    by rewrite andb_false_r in Hx. }
  destruct (usable_id py (get row "video_id")) eqn:E1; [by apply Hfield|].
  destruct H as [?|H]; [done|]. rewrite H. by apply Hfield.
Qed.

(** ** Runs over longer frames *)

(** X25.  Rows added at the end of a frame change nothing for the rows
    before them: the identifiers, documents, metadata, vectors and skip
    messages of the shorter run are a prefix of those of the longer one. *)
Theorem build_is_stable_under_appending (rows more : list (Row F)) :
  ids (build py rows) `prefix_of` ids (build py (rows ++ more)) ∧
  documents (build py rows) `prefix_of` documents (build py (rows ++ more)) ∧
  metadatas (build py rows) `prefix_of` metadatas (build py (rows ++ more)) ∧
  embeddings (build py rows) `prefix_of` embeddings (build py (rows ++ more)) ∧
  printed (build py rows) `prefix_of` printed (build py (rows ++ more)) ∧
  used_ids (build py rows) ⊆ used_ids (build py (rows ++ more)).
Proof.
  unfold build. rewrite iterrows_from_app.
  destruct (iterrows_from_extends py (0 + length rows) more
              (iterrows_from py 0 rows initial_state)) as [Hu (t & Hi & _) Hd Hm He Hp].
  split; [rewrite Hi; by apply prefix_app_r|]. done.
Qed.

End Trimmed.

Lemma field_ids_are_trimmed_witness :
  ∃ c t, get_valid_video_id Sample.py {[ "video_id" := CStr "  ab c " ]} 0 = String c t ∧
         PyStr.isspace c = false.
Proof.
  destruct (field_ids_are_trimmed Sample.py {[ "video_id" := CStr "  ab c " ]} 0)
    as (c & t & _ & _ & Hc & _ & Hs & _).
  - left. reflexivity.
  - exists c, t. split; [exact Hc|exact Hs].
Defined.

Lemma vid_from_url_query_witness :
  vid_from_url ("https://www.youtube.com/watch?" +:+ "v=" +:+ "dQw4" +:+ "&t=3") = Some "dQw4".
Proof.
  apply vid_from_url_query; [reflexivity|reflexivity|reflexivity|].
  right. eexists. reflexivity.
Defined.
